(** * relion_star_handler: a shallow embedding of [RelionMetaData]

    The development follows [relion_star_handler.py]: the text primitives
    the parser relies on ([str.strip], [str.split], [str.startswith],
    [str.join], iteration over the lines of a text file), the two library
    containers it builds ([numpy.ndarray] and [pandas.DataFrame], reduced to
    what the handler observes of them), and then the methods of the class,
    one definition per method, over an explicit store of objects and files.

    Conventions.
    - A Python [str] is a list of characters; characters are the 8-bit
      [ascii] type, read as the code points U+0000 to U+00FF.
    - A text file is its decoded text.  Reading goes through the universal
      newline translation of [open(..., 'r')]; writing is that of a POSIX
      platform, where ['\n'] is written unchanged.
    - Exceptions are values of [exn]; a method that may raise returns
      [exn + A]. *)

From Stdlib Require Import Ascii String List ZArith Lia Bool Arith.
Import ListNotations.

Local Open Scope list_scope.

(** ** Python strings *)

Module Py.

Definition str := list ascii.

(** String literals of the source. *)
Definition lit (s : string) : str := list_ascii_of_string s.

Definition LF : ascii := "010"%char.
Definition CR : ascii := "013"%char.
Definition NUL : ascii := "000"%char.

Definition chr_eqb (a b : ascii) : bool := Ascii.eqb a b.

Fixpoint str_eqb (a b : str) : bool :=
  match a, b with
  | [], [] => true
  | x :: a', y :: b' => chr_eqb x y && str_eqb a' b'
  | _, _ => false
  end.

(** [str.isspace] on one character, for code points below 256:
    U+0009..U+000D, U+001C..U+001F, U+0020, U+0085 and U+00A0. *)
Definition isspace (c : ascii) : bool :=
  let n := nat_of_ascii c in
  ((9 <=? n) && (n <=? 13)) || ((28 <=? n) && (n <=? 32))
  || (n =? 133) || (n =? 160).

Fixpoint lstrip (s : str) : str :=
  match s with
  | [] => []
  | c :: s' => if isspace c then lstrip s' else s
  end.

Fixpoint rstrip (s : str) : str :=
  match s with
  | [] => []
  | c :: s' =>
      match rstrip s' with
      | [] => if isspace c then [] else [c]
      | r => c :: r
      end
  end.

(** [s.strip()] *)
Definition strip (s : str) : str := rstrip (lstrip s).

(** [s.split()] with no argument: the maximal runs of non-space
    characters, in order.  [cur] is the run being read. *)
Fixpoint split_from (cur : str) (s : str) : list str :=
  match s with
  | [] => match cur with [] => [] | _ => [cur] end
  | c :: s' =>
      if isspace c
      then match cur with
           | [] => split_from [] s'
           | _ => cur :: split_from [] s'
           end
      else split_from (cur ++ [c]) s'
  end.

Definition split (s : str) : list str := split_from [] s.

(** [s.startswith(prefix)] *)
Fixpoint startswith (s prefix : str) {struct prefix} : bool :=
  match prefix with
  | [] => true
  | p :: prefix' =>
      match s with
      | [] => false
      | c :: s' => chr_eqb c p && startswith s' prefix'
      end
  end.

(** [sep.join(parts)] *)
Fixpoint join (sep : str) (parts : list str) : str :=
  match parts with
  | [] => []
  | [p] => p
  | p :: rest => p ++ sep ++ join sep rest
  end.

(** The universal newline translation applied when a file opened in text
    mode is read: ['\r\n'] and a lone ['\r'] both become ['\n']. *)
Fixpoint universal_newlines (s : str) : str :=
  match s with
  | [] => []
  | c :: s' =>
      if chr_eqb c CR
      then match s' with
           | d :: s'' =>
               if chr_eqb d LF then universal_newlines s'
               else LF :: universal_newlines s'
           | [] => [LF]
           end
      else c :: universal_newlines s'
  end.

(** [for line in f]: the lines of a text, each with its terminator; the
    last one has none when the text does not end with a newline. *)
Fixpoint lines_from (cur : str) (s : str) : list str :=
  match s with
  | [] => match cur with [] => [] | _ => [cur] end
  | c :: s' =>
      if chr_eqb c LF then (cur ++ [c]) :: lines_from [] s'
      else lines_from (cur ++ [c]) s'
  end.

Definition readlines (text : str) : list str :=
  lines_from [] (universal_newlines text).

(** [os.path.join(a, b)] of [posixpath]. *)
Definition path_join (a b : str) : str :=
  if startswith b (lit "/") then b
  else match rev a with
       | [] => b
       | c :: _ => if chr_eqb c "/"%char then a ++ b else a ++ lit "/" ++ b
       end.

(** Trailing NUL characters cannot be stored in a fixed-width numpy string:
    an element read back from a ['<U'] array has them removed. *)
Fixpoint rstrip_nul (s : str) : str :=
  match s with
  | [] => []
  | c :: s' =>
      match rstrip_nul s' with
      | [] => if chr_eqb c NUL then [] else [c]
      | r => c :: r
      end
  end.

(** [str(datetime.datetime.now())]: ISO format with a space separator,
    the microseconds printed only when they are not zero. *)
Record datetime := {
  year : nat; month : nat; day : nat;
  hour : nat; minute : nat; second : nat; microsecond : nat
}.

Definition digit (n : nat) : ascii :=
  match n mod 10 with
  | 0 => "0" | 1 => "1" | 2 => "2" | 3 => "3" | 4 => "4"
  | 5 => "5" | 6 => "6" | 7 => "7" | 8 => "8" | _ => "9"
  end%char.

(** ['%0<width>d' % n] for [n < 10 ^ width]. *)
Fixpoint dec (width n : nat) : str :=
  match width with
  | 0 => []
  | S w => dec w (n / 10) ++ [digit n]
  end.

Definition datetime_str (t : datetime) : str :=
  dec 4 (year t) ++ lit "-" ++ dec 2 (month t) ++ lit "-" ++ dec 2 (day t)
  ++ lit " " ++ dec 2 (hour t) ++ lit ":" ++ dec 2 (minute t) ++ lit ":"
  ++ dec 2 (second t)
  ++ (if microsecond t =? 0 then [] else lit "." ++ dec 6 (microsecond t)).

End Py.

Import Py.

(** ** Exceptions and the error monad *)

Inductive exn : Type :=
| FileNotFoundError (path : str)
| AssertionError (message : option str)
| UnboundLocalError (name : str)
| ValueError
| IndexError
| KeyError
| InvalidRef.

Definition result (A : Type) : Type := (exn + A)%type.

(** [Ok a] is a normal return, [Raise e] an exception. *)
Abbreviation Ok := (@inr exn _).
Abbreviation Raise := (@inl exn _).

Definition bind {A B : Type} (m : result A) (k : A -> result B) : result B :=
  match m with
  | inl e => inl e
  | inr a => k a
  end.

Notation "x <- m ;; k" := (bind m (fun x => k))
  (at level 61, m at next level, right associativity).
Notation "' p <- m ;; k" := (bind m (fun x => match x with p => k end))
  (at level 61, p pattern, m at next level, right associativity).

(** ** numpy arrays and pandas frames, as the handler sees them *)

(** A [numpy.ndarray] of strings of at most two dimensions: its shape and,
    row by row, its elements. *)
Record ndarray := {
  shape : list nat;
  cells : list (list str)
}.

(** [np.array(body)] on a list of lists of strings.  Rows of one common
    length give a two-dimensional array of fixed-width strings; rows of
    different lengths are refused ([ValueError], inhomogeneous shape; numpy
    before 1.24 builds a one-dimensional array of lists instead, and the
    handler then fails one step later, on [shape[1]]).  The empty list gives
    the one-dimensional empty array of shape [(0,)]. *)
Definition np_array (body : list (list str)) : result ndarray :=
  match body with
  | [] => Ok {| shape := [0]; cells := [] |}
  | r :: rest =>
      if forallb (fun r' => length r' =? length r) rest
      then Ok {| shape := [length body; length r];
                 cells := map (map rstrip_nul) body |}
      else Raise ValueError
  end.

(** [a.shape[i]] *)
Definition shape_at (a : ndarray) (i : nat) : result nat :=
  match nth_error (shape a) i with
  | Some k => Ok k
  | None => Raise IndexError
  end.

(** A [pandas.DataFrame] of strings: the column labels, and the rows in
    order, each with its row label (the entries of [df.index]). *)
Record DataFrame := {
  columns : list str;
  rows : list (Z * list str)
}.

Definition index (df : DataFrame) : list Z := map fst (rows df).
Definition values (df : DataFrame) : list (list str) := map snd (rows df).

(** [pd.RangeIndex(n)] paired with the rows of a new frame. *)
Fixpoint label_from (start : Z) (vals : list (list str)) : list (Z * list str) :=
  match vals with
  | [] => []
  | v :: vals' => (start, v) :: label_from (start + 1) vals'
  end.

(** [pd.DataFrame(data, columns=columns)] for a two-dimensional [data]:
    the number of columns must agree; the row labels are [0 .. n-1].
    The handler only passes arrays whose [shape[1]] it has just read. *)
Definition pd_DataFrame (data : ndarray) (cols : list str) : result DataFrame :=
  match shape data with
  | [_; k] =>
      if k =? length cols
      then Ok {| columns := cols; rows := label_from 0 (cells data) |}
      else Raise ValueError
  | _ => Raise ValueError
  end.

(** A position given to [iloc]: negative positions count from the end. *)
Definition position (n : nat) (i : Z) : option nat :=
  if ((0 <=? i) && (i <? Z.of_nat n))%Z then Some (Z.to_nat i)
  else if ((- Z.of_nat n <=? i) && (i <? 0))%Z then Some (Z.to_nat (Z.of_nat n + i))
  else None.

(** [df.iloc[idxs]] for a list of integer positions: the rows at these
    positions, with their labels, in the order asked; [IndexError] when a
    position is out of bounds. *)
Fixpoint take_rows (rs : list (Z * list str)) (idxs : list Z)
  : result (list (Z * list str)) :=
  match idxs with
  | [] => Ok []
  | i :: idxs' =>
      match position (length rs) i with
      | None => Raise IndexError
      | Some p =>
          match nth_error rs p with
          | None => Raise IndexError
          | Some r => rest <- take_rows rs idxs' ;; Ok (r :: rest)
          end
      end
  end.

Definition df_iloc (df : DataFrame) (idxs : list Z) : result DataFrame :=
  rs <- take_rows (rows df) idxs ;;
  Ok {| columns := columns df; rows := rs |}.

(** [df.loc[i]] for a row label: the row as a Series when the label occurs
    once, a frame of all the rows carrying it when it occurs several times,
    [KeyError] when it does not occur. *)
Inductive loc_result : Type :=
| Series (cells : list str)
| Frame (df : DataFrame).

Definition df_loc (df : DataFrame) (i : Z) : result loc_result :=
  match filter (fun r => (fst r =? i)%Z) (rows df) with
  | [] => Raise KeyError
  | [r] => Ok (Series (snd r))
  | rs => Ok (Frame {| columns := columns df; rows := rs |})
  end.

(** Iterating over the result of [df.loc[i]], as [str.join] does: a Series
    yields its cells, a frame yields its column labels. *)
Definition iterate (x : loc_result) : list str :=
  match x with
  | Series c => c
  | Frame d => columns d
  end.

(** ** The store: frame objects and files *)

(** Frames are objects: a document holds references to them, and two
    documents may hold the same reference.  [heap] maps a reference to the
    frame it denotes; a new object takes the next free reference.  [files]
    maps a path to the text of the file, the most recent write first. *)
Definition ref := nat.

Record world := {
  heap : list DataFrame;
  files : list (str * str)
}.

(** Dereferencing.  [InvalidRef] has no Python counterpart: it is the
    model's answer for a reference that no allocation returned. *)
Definition deref (w : world) (r : ref) : result DataFrame :=
  match nth_error (heap w) r with
  | Some df => Ok df
  | None => Raise InvalidRef
  end.

Definition alloc (w : world) (df : DataFrame) : world * ref :=
  ({| heap := heap w ++ [df]; files := files w |}, length (heap w)).

Fixpoint lookup (fs : list (str * str)) (path : str) : option str :=
  match fs with
  | [] => None
  | (p, text) :: fs' => if str_eqb p path then Some text else lookup fs' path
  end.

(** [open(path, 'r')], as the sequence of lines the iteration yields. *)
Definition open_read (w : world) (path : str) : result (list str) :=
  match lookup (files w) path with
  | Some text => Ok (readlines text)
  | None => Raise (FileNotFoundError path)
  end.

(** Closing a file opened with [open(path, 'w')] after [text] was written. *)
Definition store_file (w : world) (path text : str) : world :=
  {| heap := heap w; files := (path, text) :: files w |}.

(** ** class RelionMetaData *)

Record RelionMetaData := {
  df_particles : ref;
  df_optics : option ref;
  starfile : option str
}.

(** [__init__(self, df_particles, df_optics=None, starfile=None)] *)
Definition __init__ (df_particles : ref) (df_optics : option ref)
    (starfile : option str) : RelionMetaData :=
  {| df_particles := df_particles; df_optics := df_optics;
     starfile := starfile |}.

(** *** _read_block *)

(** [for line in f: if line.startswith(prefix): break].  The loop variable
    [line] keeps the last line read; it stays as it was when [f] is already
    exhausted. *)
Fixpoint seek (prefix : str) (line : option str) (f : list str)
  : option str * list str :=
  match f with
  | [] => (line, [])
  | l :: f' =>
      if startswith l prefix then (Some l, f') else seek prefix (Some l) f'
  end.

(** The header loop: [headers.append(line.strip().split()[0])] while the
    line starts with an underscore. *)
Fixpoint read_headers (headers : list str) (line : option str) (f : list str)
  : result (list str * option str * list str) :=
  match f with
  | [] => Ok (headers, line, [])
  | l :: f' =>
      if startswith l (lit "_")
      then match split (strip l) with
           | name :: _ => read_headers (headers ++ [name]) (Some l) f'
           | [] => Raise IndexError
           end
      else Ok (headers, Some l, f')
  end.

(** The body loop: rows are appended until a line is empty once stripped. *)
Fixpoint read_body (body : list (list str)) (f : list str)
  : list (list str) * list str :=
  match f with
  | [] => (body, [])
  | l :: f' =>
      if str_eqb (strip l) (lit "") then (body, f')
      else read_body (body ++ [split (strip l)]) f'
  end.

(** The four loops of [_read_block], up to the list [body] before it is
    turned into an array.  The first row is the line the header loop
    stopped on; when no loop has read any line, [line] is unbound. *)
Definition collect (f : list str) (blockname : str)
  : result (list str * list (list str) * list str) :=
  let '(line, f) := seek blockname None f in
  let '(line, f) := seek (lit "loop_") line f in
  '(headers, line, f) <- read_headers [] line f ;;
  first <- match line with
           | Some l => Ok (split (strip l))
           | None => Raise (UnboundLocalError (lit "line"))
           end ;;
  let '(body, f) := read_body [first] f in
  Ok (headers, body, f).

(** [_read_block(cls, f, blockname)]: the result, and the lines left in
    [f]. *)
Definition _read_block (f : list str) (blockname : str)
  : result (list str * ndarray * list str) :=
  '(headers, body, f) <- collect f blockname ;;
  body <- np_array body ;;
  ncols <- shape_at body 1 ;;
  if length headers =? ncols then Ok (headers, body, f)
  else Raise (AssertionError None).

(** *** load *)

(** The version check of [load]: the value of [relion31] after the loop. *)
Fixpoint check_version (f : list str) : result (option bool) :=
  match f with
  | [] => Ok None
  | line :: f' =>
      match split (strip line) with
      | [] => check_version f'
      | word :: _ =>
          if str_eqb word (lit "data_optics") then Ok (Some true)
          else if str_eqb word (lit "data_") then Ok (Some false)
          else match word with
               | [] => Raise IndexError
               | c :: _ =>
                   if chr_eqb c "#"%char then check_version f'
                   else check_version f'
               end
      end
  end.

(** [_load_relion31(cls, starfile)] *)
Definition _load_relion31 (w : world) (starfile : str)
  : result (world * ref * ref) :=
  f <- open_read w starfile ;;
  '(headers_optics, data_optics, f) <- _read_block f (lit "data_optics") ;;
  '(headers_particles, data_particles, f) <-
     _read_block f (lit "data_particles") ;;
  df_optics <- pd_DataFrame data_optics headers_optics ;;
  let '(w, r_optics) := alloc w df_optics in
  df_particles <- pd_DataFrame data_particles headers_particles ;;
  let '(w, r_particles) := alloc w df_particles in
  Ok (w, r_particles, r_optics).

(** [_load_relion(cls, starfile)] *)
Definition _load_relion (w : world) (starfile : str) : result (world * ref) :=
  f <- open_read w starfile ;;
  '(headers, data, f) <- _read_block f (lit "data_") ;;
  df <- pd_DataFrame data headers ;;
  Ok (alloc w df).

(** [load(cls, starfile)] *)
Definition load (w : world) (starfile : str)
  : result (world * RelionMetaData) :=
  f <- open_read w starfile ;;
  relion31 <- check_version f ;;
  match relion31 with
  | None =>
      Raise (AssertionError
               (Some (lit "The starfile " ++ starfile ++ lit " is invalid.")))
  | Some true =>
      '(w, df_particles, df_optics) <- _load_relion31 w starfile ;;
      Ok (w, __init__ df_particles (Some df_optics) (Some starfile))
  | Some false =>
      '(w, df_particles) <- _load_relion w starfile ;;
      Ok (w, __init__ df_particles None (Some starfile))
  end.

(** *** write *)

(** The newline written by [f.write('\n')]. *)
Definition nl : str := [LF].

(** [for i in df.index: f.write(' '.join(df.loc[i])); f.write('\n')] *)
Fixpoint write_rows (f : str) (df : DataFrame) (labels : list Z) : result str :=
  match labels with
  | [] => Ok f
  | i :: labels' =>
      row <- df_loc df i ;;
      write_rows (f ++ join (lit " ") (iterate row) ++ nl) df labels'
  end.

(** [_write_block(self, f, blockname, df)]: [f] is the text written to the
    file so far. *)
Definition _write_block (f : str) (blockname : str) (df : DataFrame)
  : result str :=
  let f := f ++ strip blockname in
  let f := f ++ nl ++ nl in
  let f := f ++ lit "loop_" ++ nl in
  let f := f ++ join nl (columns df) in
  let f := f ++ nl in
  f <- write_rows f df (index df) ;;
  Ok (f ++ nl).

(** [write(self, outdir, outfile_rootname)]; [now] is the value of
    [datetime.datetime.now()].  Directories are not modelled:
    [os.makedirs] has no effect on [files].  The file appears in [files]
    when it is closed, with all the text written. *)
Definition write (w : world) (self : RelionMetaData)
    (outdir outfile_rootname : str) (now : datetime) : result world :=
  let outfile := path_join outdir (outfile_rootname ++ lit ".star") in
  let f := lit "# Created by cryoPICLS at " ++ datetime_str now ++ nl in
  let f := f ++ nl in
  f <- match df_optics self with
       | Some r_optics =>
           optics <- deref w r_optics ;;
           f <- _write_block f (lit "data_optics") optics ;;
           particles <- deref w (df_particles self) ;;
           _write_block f (lit "data_particles") particles
       | None =>
           particles <- deref w (df_particles self) ;;
           _write_block f (lit "data_") particles
       end ;;
  Ok (store_file w outfile f).

(** *** iloc *)

(** [iloc(self, idxs)]: the selection is a new frame object; the optics
    reference is passed on as it is and [starfile] takes its default. *)
Definition iloc (w : world) (self : RelionMetaData) (idxs : list Z)
  : result (world * RelionMetaData) :=
  df <- deref w (df_particles self) ;;
  df_particles_new <- df_iloc df idxs ;;
  let '(w, r) := alloc w df_particles_new in
  Ok (w, __init__ r (df_optics self) None).

(** ** Notions used in the statements *)

(** [unlines ls]: the text made of the lines [ls], each followed by a
    newline. *)
Definition unlines (ls : list str) : str :=
  concat (map (fun l => l ++ nl) ls).

(** The first word of a line, when it has one. *)
Definition first_word (line : str) : option str :=
  hd_error (split (strip line)).

(** The first meaningful token of a file: blank lines and comment lines
    (those whose first word begins with [#]) are passed over, and the first
    word of the first line that remains is returned. *)
Fixpoint first_meaningful_token (f : list str) : option str :=
  match f with
  | [] => None
  | line :: f' =>
      match first_word line with
      | None => first_meaningful_token f'
      | Some word =>
          if startswith word (lit "#") then first_meaningful_token f'
          else Some word
      end
  end.

(** The layout a line announces, if its first word is one of the two
    markers: [Some true] for [data_optics], [Some false] for [data_]. *)
Definition marker (line : str) : option bool :=
  match first_word line with
  | Some word =>
      if str_eqb word (lit "data_optics") then Some true
      else if str_eqb word (lit "data_") then Some false
      else None
  | None => None
  end.

(** The loop variable [line] after a loop has read all of [f] without
    leaving early. *)
Fixpoint last_read (line : option str) (f : list str) : option str :=
  match f with
  | [] => line
  | l :: f' => last_read (Some l) f'
  end.

(** What [_read_block] does once a marker it looks for is missing, [line]
    being the loop variable at the end of the stream. *)
Definition marker_missing (line : option str)
  : result (list str * ndarray * list str) :=
  match line with
  | None => Raise (UnboundLocalError (lit "line"))
  | Some l =>
      match split (strip l) with
      | [] => Ok ([], {| shape := [1; 0]; cells := [[]] |}, [])
      | _ :: _ => Raise (AssertionError None)
      end
  end.


(** The shape of the output, as the format describes it.  A block is the
    block-name line, a blank line, the [loop_] line, one line per column
    name, one line per row with the fields joined by one space, and a
    blank line. *)
Definition block_lines (blockname : str) (df : DataFrame) : list str :=
  [blockname; lit ""; lit "loop_"] ++ columns df
  ++ map (join (lit " ")) (values df) ++ [lit ""].

Definition provenance (now : datetime) : str :=
  lit "# Created by cryoPICLS at " ++ datetime_str now.

(** A document is the provenance comment, a blank line, and then the
    optics block and the particles block, or the single legacy block. *)
Definition document_lines (now : datetime) (optics : option DataFrame)
    (particles : DataFrame) : list str :=
  [provenance now; lit ""]
  ++ match optics with
     | Some o =>
         block_lines (lit "data_optics") o
         ++ block_lines (lit "data_particles") particles
     | None => block_lines (lit "data_") particles
     end.

(** Pairwise distinct row labels. *)
Fixpoint distinct (labels : list Z) : bool :=
  match labels with
  | [] => true
  | i :: labels' => negb (existsb (Z.eqb i) labels') && distinct labels'
  end.


(** A character that is neither a line feed nor a carriage return. *)
Definition plain (c : ascii) : bool :=
  negb (chr_eqb c LF) && negb (chr_eqb c CR).

(** Strings without white space; column labels; field values. *)
Definition no_space (s : str) : bool :=
  forallb (fun c => negb (isspace c)) s.

Definition is_label (s : str) : bool :=
  startswith s (lit "_") && no_space s.




(** A table with at least one row whose fields are all non-empty strings
    without white space. *)
Definition rows_of_tokens (df : DataFrame) : bool :=
  negb (length (rows df) =? 0)
  && forallb (fun r => forallb (fun x => negb (length x =? 0) && no_space x)
                         (snd r)) (rows df).

(** The message of the assertion that closes the version check. *)
Definition invalid_starfile (starfile : str) : exn :=
  AssertionError (Some (lit "The starfile " ++ starfile ++ lit " is invalid.")).

(** *** Example data *)

Module Examples.

(** A file that opens with a line which is neither blank, nor a comment,
    nor a marker, and goes on with a legacy block. *)
Definition foo_text : str :=
  unlines [lit "foo_bar"; lit "data_"; lit ""; lit "loop_"; lit "_a";
           lit "1"; lit ""].

Definition foo_world : world :=
  {| heap := []; files := [(lit "foo.star", foo_text)] |}.

(** A file with no marker at all. *)
Definition junk_world : world :=
  {| heap := []; files := [(lit "junk.star", unlines [lit "foo_bar"; lit "# data_"])] |}.

(** A modern and a legacy file. *)
Definition modern_text : str :=
  unlines [lit "# version 30001"; lit ""; lit "data_optics"; lit "";
           lit "loop_"; lit "_rlnOpticsGroup #1"; lit "_rlnVoltage #2";
           lit "1 300.0"; lit ""; lit "data_particles"; lit "";
           lit "loop_"; lit "_rlnImageName #1"; lit "_rlnOpticsGroup #2";
           lit "001.mrc   1"; lit "002.mrc   1"; lit ""].

Definition legacy_text : str :=
  unlines [lit ""; lit "data_"; lit ""; lit "loop_";
           lit "_rlnImageName #1"; lit "_rlnDefocusU #2";
           lit "001.mrc 10000"; lit "002.mrc 10500"; lit ""].

Definition star_world : world :=
  {| heap := [];
     files := [(lit "modern.star", modern_text);
               (lit "legacy.star", legacy_text)] |}.

(** A document with three rows, held in a store. *)
Definition three_rows : DataFrame :=
  {| columns := [lit "_rlnImageName"; lit "_rlnDefocusU"];
     rows := [(0%Z, [lit "001.mrc"; lit "10000"]);
              (1%Z, [lit "002.mrc"; lit "10500"]);
              (2%Z, [lit "003.mrc"; lit "11000"])] |}.

Definition optics_one : DataFrame :=
  {| columns := [lit "_rlnOpticsGroup"; lit "_rlnVoltage"];
     rows := [(0%Z, [lit "1"; lit "300.0"])] |}.

Definition doc_world : world :=
  {| heap := [optics_one; three_rows]; files := [] |}.

Definition doc : RelionMetaData :=
  __init__ 1 (Some 0) (Some (lit "particles.star")).

(** Writing the only frame of a store as a legacy document under
    [out/x.star], loading that file, and looking at the primary table. *)
Definition noon : datetime :=
  {| year := 2021; month := 3; day := 7;
     hour := 12; minute := 0; second := 5; microsecond := 0 |}.

Definition world_of (df : DataFrame) : world :=
  {| heap := [df]; files := [] |}.

Definition written (df : DataFrame) : result (option str) :=
  w1 <- write (world_of df) (__init__ 0 None None) (lit "out") (lit "x") noon ;;
  Ok (lookup (files w1) (lit "out/x.star")).

Definition reload (df : DataFrame) : result DataFrame :=
  w1 <- write (world_of df) (__init__ 0 None None) (lit "out") (lit "x") noon ;;
  '(w2, d) <- load w1 (lit "out/x.star") ;;
  deref w2 (df_particles d).





(** A table without columns, and a table with a repeated row label (the
    result of [iloc] with positions [0; 0; 1] on a two-row table). *)
Definition no_columns : DataFrame :=
  {| columns := []; rows := [(0%Z, []); (1%Z, [])] |}.

Definition repeated_labels : DataFrame :=
  {| columns := [lit "_rlnImageName"; lit "_rlnDefocusU"];
     rows := [(0%Z, [lit "001.mrc"; lit "10000"]);
              (0%Z, [lit "001.mrc"; lit "10000"]);
              (1%Z, [lit "002.mrc"; lit "10500"])] |}.

(** Streams for [_read_block]. *)
Definition no_block : list str := [lit "foo" ++ nl; nl].
Definition no_loop : list str := [lit "data_" ++ nl; nl].
Definition short_rows : list str :=
  map (fun l => l ++ nl)
    [lit "data_"; lit ""; lit "loop_"; lit "_a"; lit "_b"; lit "1"; lit "2";
     lit ""].
Definition zero_rows : list str :=
  map (fun l => l ++ nl)
    [lit "data_"; lit ""; lit "loop_"; lit "_a"; lit "_b"; lit ""].

(** The outcome of [iloc] with positions [2; 0; 2] on [doc], and of [load]
    on the two files of [star_world]. *)
Definition projected : world * RelionMetaData :=
  Eval vm_compute in
    match iloc doc_world doc [2; 0; 2]%Z with
    | inr x => x
    | inl _ => (doc_world, doc)
    end.

Definition loaded_modern : world * RelionMetaData :=
  Eval vm_compute in
    match load star_world (lit "modern.star") with
    | inr x => x
    | inl _ => (star_world, doc)
    end.

Definition loaded_legacy : world * RelionMetaData :=
  Eval vm_compute in
    match load star_world (lit "legacy.star") with
    | inr x => x
    | inl _ => (star_world, doc)
    end.

End Examples.

(** ** Further notions *)

(** The name a header line declares: its first word. *)
Definition header_name (line : str) : str :=
  match split (strip line) with
  | name :: _ => name
  | [] => []
  end.

(** The fields of a body line. *)
Definition fields_of (line : str) : list str := split (strip line).

(** The layout announced by the first line that announces one. *)
Fixpoint first_marker (f : list str) : option bool :=
  match f with
  | [] => None
  | line :: f' =>
      match marker line with
      | Some b => Some b
      | None => first_marker f'
      end
  end.

(** The frame [load] builds from what [_read_block] returns. *)
Definition frame_of (headers : list str) (data : ndarray) : DataFrame :=
  {| columns := headers; rows := label_from 0 (cells data) |}.

(** The row labels [0 .. n-1] of [pd.RangeIndex(n)]. *)
Definition range_index (n : nat) : list Z := map Z.of_nat (seq 0 n).

(** What holds of every table that [load] returns: it has a row, its row
    labels are [0 .. n-1], every row has one field per column, every column
    label begins with an underscore and has no white space, and no field
    has white space. *)
Definition loaded_table (df : DataFrame) : Prop :=
  rows df <> [] /\
  index df = range_index (length (rows df)) /\
  Forall (fun row => length row = length (columns df)) (values df) /\
  Forall (fun c => is_label c = true) (columns df) /\
  Forall (fun row => Forall (fun x => no_space x = true) row) (values df).

(** The cells [_write_block] joins for a row: the fields of the row when
    its label occurs once in the index, the column labels of the frame when
    the label occurs several times. *)
Definition written_cells (df : DataFrame) (r : Z * list str) : list str :=
  if count_occ Z.eq_dec (index df) (fst r) =? 1 then snd r else columns df.

(** The text of a block and of a document, for any frame. *)
Definition emitted_block (blockname : str) (df : DataFrame) : str :=
  strip blockname ++ nl ++ nl ++ lit "loop_" ++ nl
  ++ join nl (columns df) ++ nl
  ++ unlines (map (fun r => join (lit " ") (written_cells df r)) (rows df))
  ++ nl.


(** A text whose lines end with a carriage return and a line feed. *)
Definition crlf_text (ls : list str) : str :=
  concat (map (fun l => l ++ [CR; LF]) ls).

(** *** Further example data *)

Module MoreExamples.

Import Examples.

(** A block written with comments after the labels and with runs of
    blanks between and around the fields, followed by another line. *)
Definition spaced_block : list str :=
  [lit "# particles" ++ nl]
  ++ (lit "data_particles" ++ nl)
  :: [nl]
  ++ (lit "loop_ " ++ nl)
  :: [lit "_rlnImageName #1" ++ nl; lit "_rlnDefocusU #2" ++ nl]
  ++ (lit "001.mrc   10000" ++ nl)
  :: [lit "  002.mrc 10500 " ++ nl]
  ++ [nl; lit "next" ++ nl].

(** A block that ends with its two header lines. *)
Definition headers_only : list str :=
  [] ++ (lit "data_" ++ nl) :: [nl] ++ (lit "loop_" ++ nl)
  :: [lit "_a #1" ++ nl] ++ [lit "_b #2" ++ nl].

(** A file whose marker line is indented. *)
Definition indented_world : world :=
  {| heap := [];
     files := [(lit "indented.star", unlines [lit "  data_"; lit ""])] |}.





(** The same two lines with the two kinds of line endings. *)
Definition crlf_world : world :=
  {| heap := [];
     files := [(lit "a.star", crlf_text [lit "data_"; lit "loop_"])] |}.

Definition lf_world : world :=
  {| heap := [];
     files := [(lit "a.star", unlines [lit "data_"; lit "loop_"])] |}.

End MoreExamples.

(** ** Facts about the text primitives *)

Section TextFacts.

Lemma chr_eqb_eq (a b : ascii) : chr_eqb a b = true <-> a = b.
Proof. unfold chr_eqb. apply Ascii.eqb_eq. Qed.


Lemma str_eqb_eq (a b : str) : str_eqb a b = true <-> a = b.
Proof.
  revert b. induction a as [|x a IH]; intros [|y b]; simpl;
    try (split; [discriminate | discriminate]); try tauto.
  rewrite andb_true_iff, chr_eqb_eq, IH. split.
  - intros [-> ->]. reflexivity.
  - intros E. inversion E. auto.
Qed.



Lemma split_from_blank (cur s : str) :
  forallb isspace s = true ->
  split_from cur s = match cur with [] => [] | _ => [cur] end.
Proof.
  revert cur. induction s as [|c s IH]; intros cur H; simpl in *.
  - reflexivity.
  - apply andb_true_iff in H. destruct H as [Hc Hs]. rewrite Hc.
    destruct cur; rewrite IH by assumption; reflexivity.
Qed.

Lemma rstrip_nil (s : str) : rstrip s = [] <-> forallb isspace s = true.
Proof.
  induction s as [|c s IH]; simpl.
  - tauto.
  - destruct (rstrip s) eqn:E.
    + destruct (isspace c); simpl.
      * tauto.
      * split; discriminate.
    + split; [discriminate|]. intros H. apply andb_true_iff in H.
      destruct H as [_ H]. apply IH in H. discriminate.
Qed.

Lemma lstrip_nil (s : str) : lstrip s = [] <-> forallb isspace s = true.
Proof.
  induction s as [|c s IH]; simpl.
  - tauto.
  - destruct (isspace c) eqn:E; simpl.
    + exact IH.
    + split; discriminate.
Qed.

Lemma forallb_isspace_lstrip (s : str) :
  forallb isspace (lstrip s) = forallb isspace s.
Proof.
  induction s as [|c s IH]; simpl; [reflexivity|].
  destruct (isspace c) eqn:E; simpl; [exact IH|]. now rewrite E.
Qed.

Lemma strip_nil (s : str) : strip s = [] <-> forallb isspace s = true.
Proof.
  unfold strip. rewrite rstrip_nil, forallb_isspace_lstrip. tauto.
Qed.

Lemma split_from_rstrip (cur s : str) :
  split_from cur (rstrip s) = split_from cur s.
Proof.
  revert cur. induction s as [|c s IH]; intros cur; simpl; [reflexivity|].
  destruct (rstrip s) eqn:E.
  - assert (B : forallb isspace s = true) by now apply rstrip_nil.
    destruct (isspace c) eqn:Hc; simpl; [|rewrite Hc];
      rewrite !split_from_blank by assumption.
    + now destruct cur.
    + now destruct cur.
  - simpl. destruct (isspace c); rewrite <- !IH; reflexivity.
Qed.

Lemma split_lstrip (s : str) : split (lstrip s) = split s.
Proof.
  unfold split. induction s as [|c s IH]; simpl; [reflexivity|].
  destruct (isspace c) eqn:E; [exact IH|]. simpl. now rewrite E.
Qed.

(** [line.strip().split()] is [line.split()]. *)
Lemma split_strip (s : str) : split (strip s) = split s.
Proof.
  unfold strip, split. rewrite split_from_rstrip. apply split_lstrip.
Qed.

(** A line has no word exactly when it is blank. *)
Lemma split_from_nil (cur s : str) :
  split_from cur s = [] <-> cur = [] /\ forallb isspace s = true.
Proof.
  revert cur. induction s as [|c s IH]; intros cur; simpl.
  - destruct cur; split; try tauto; try discriminate. intros [E _]. discriminate.
  - destruct (isspace c); simpl.
    + destruct cur.
      * rewrite IH. tauto.
      * split; [discriminate|]. intros [E _]. discriminate.
    + rewrite IH. split; [|intros [_ E]; discriminate].
      intros [E _]. now destruct cur.
Qed.

Lemma split_nil (s : str) : split s = [] <-> strip s = [].
Proof.
  unfold split. rewrite split_from_nil, strip_nil. tauto.
Qed.

(** No word returned by [split] is empty. *)
Lemma split_from_words (cur s : str) :
  Forall (fun w => w <> []) (split_from cur s).
Proof.
  revert cur. induction s as [|c s IH]; intros cur; simpl.
  - destruct cur; constructor; [discriminate | constructor].
  - destruct (isspace c).
    + destruct cur; [apply IH|]. constructor; [discriminate | apply IH].
    + apply IH.
Qed.

Lemma split_head_nonempty (s w : str) (ws : list str) :
  split s = w :: ws -> w <> [].
Proof.
  intros E. pose proof (split_from_words [] s) as F. unfold split in E.
  rewrite E in F. now inversion F.
Qed.

End TextFacts.

(** ** The store *)

Section StoreFacts.

Lemma deref_alloc_new (w : world) (df : DataFrame) :
  deref (fst (alloc w df)) (snd (alloc w df)) = Ok df.
Proof.
  unfold deref, alloc. simpl.
  rewrite nth_error_app2 by lia. now rewrite Nat.sub_diag.
Qed.

Lemma deref_alloc_old (w : world) (df df' : DataFrame) (r : ref) :
  deref w r = Ok df' -> deref (fst (alloc w df)) r = Ok df'.
Proof.
  unfold deref, alloc. simpl. destruct (nth_error (heap w) r) eqn:E.
  - intros H. rewrite nth_error_app1.
    + now rewrite E.
    + apply nth_error_Some. congruence.
  - discriminate.
Qed.

Lemma deref_bound (w : world) (r : ref) (df : DataFrame) :
  deref w r = Ok df -> r < length (heap w).
Proof.
  unfold deref. destruct (nth_error (heap w) r) eqn:E; [|discriminate].
  intros _. apply nth_error_Some. congruence.
Qed.

End StoreFacts.

(** ** Row projection *)

Section Projection.

Lemma position_valid (n : nat) (i : Z) :
  (0 <= i < Z.of_nat n)%Z -> position n i = Some (Z.to_nat i).
Proof.
  intros H. unfold position.
  replace ((0 <=? i)%Z) with true by (symmetry; apply Z.leb_le; lia).
  replace ((i <? Z.of_nat n)%Z) with true by (symmetry; apply Z.ltb_lt; lia).
  reflexivity.
Qed.

Lemma position_out (n : nat) (i : Z) :
  (Z.of_nat n <= i \/ i < - Z.of_nat n)%Z -> position n i = None.
Proof.
  intros H. unfold position.
  destruct (Z.leb_spec 0 i), (Z.ltb_spec i (Z.of_nat n)),
    (Z.leb_spec (- Z.of_nat n) i), (Z.ltb_spec i 0); simpl; try reflexivity; lia.
Qed.

Lemma take_rows_valid (rs : list (Z * list str)) (idxs : list Z) :
  Forall (fun i => 0 <= i < Z.of_nat (length rs))%Z idxs ->
  take_rows rs idxs
  = Ok (map (fun i => nth (Z.to_nat i) rs (0%Z, [])) idxs).
Proof.
  induction 1 as [|i idxs Hi _ IH]; simpl; [reflexivity|].
  rewrite position_valid by assumption.
  destruct (nth_error rs (Z.to_nat i)) as [r|] eqn:E.
  - rewrite IH. simpl. now rewrite (nth_error_nth _ _ _ E).
  - apply nth_error_None in E. lia.
Qed.

Lemma take_rows_out (rs : list (Z * list str)) (idxs : list Z) :
  Exists (fun i => Z.of_nat (length rs) <= i \/ i < - Z.of_nat (length rs))%Z
    idxs ->
  take_rows rs idxs = Raise IndexError.
Proof.
  induction 1 as [i idxs Hi | i idxs _ IH]; simpl.
  - now rewrite position_out.
  - destruct (position (length rs) i); [|reflexivity].
    destruct (nth_error rs n); [|reflexivity]. now rewrite IH.
Qed.

(** C6. Projection correctness: on a document whose primary table has [n]
    rows, [iloc] with positions that all lie in [0 .. n-1] (in any order,
    with repeats or omissions) returns a new document whose primary table is
    a new frame with the same columns and exactly the rows at these
    positions, in the order given; with a position that is out of range
    ([n] or more, or below [-n]) it raises [IndexError]. *)
Theorem iloc_selects_rows (w : world) (self : RelionMetaData) (df : DataFrame)
    (idxs : list Z) :
  deref w (df_particles self) = Ok df ->
  (Forall (fun i => 0 <= i < Z.of_nat (length (rows df)))%Z idxs ->
   exists w' d' df',
     iloc w self idxs = Ok (w', d') /\
     df_particles d' <> df_particles self /\
     deref w' (df_particles d') = Ok df' /\
     columns df' = columns df /\
     rows df' = map (fun i => nth (Z.to_nat i) (rows df) (0%Z, [])) idxs /\
     values df' = map (fun i => nth (Z.to_nat i) (values df) []) idxs)
  /\
  (Exists (fun i => Z.of_nat (length (rows df)) <= i
                    \/ i < - Z.of_nat (length (rows df)))%Z idxs ->
   iloc w self idxs = Raise IndexError).
Proof.
  intros D. split; intros H.
  - unfold iloc, df_iloc. rewrite D. simpl.
    rewrite (take_rows_valid _ _ H). simpl.
    set (df' := {| columns := columns df; rows := _ |}).
    exists (fst (alloc w df')), (__init__ (length (heap w)) (df_optics self) None), df'.
    repeat split.
    + simpl. apply deref_bound in D. lia.
    + apply (deref_alloc_new w df').
    + unfold values. simpl. rewrite map_map. apply map_ext. intros i.
      now rewrite <- (map_nth snd).
  - unfold iloc, df_iloc. rewrite D. simpl. now rewrite (take_rows_out _ _ H).
Qed.

(** C7. Projection frame: the document returned by [iloc] holds the very
    reference to the optics frame that the source document holds, every
    frame object that existed before the call (the optics frame and the
    primary frame of the source among them) denotes the same frame after
    it, and no file is touched. *)
Theorem iloc_frame (w w' : world) (self d' : RelionMetaData) (idxs : list Z) :
  iloc w self idxs = Ok (w', d') ->
  df_optics d' = df_optics self /\
  (forall r df, deref w r = Ok df -> deref w' r = Ok df) /\
  deref w' (df_particles self) = deref w (df_particles self) /\
  df_particles d' = length (heap w) /\
  files w' = files w.
Proof.
  unfold iloc. destruct (deref w (df_particles self)) as [e|df] eqn:D;
    simpl; [discriminate|].
  destruct (df_iloc df idxs) as [e|df'] eqn:I; simpl; [discriminate|].
  intros E. inversion E; subst; clear E. simpl. repeat split.
  - intros r x Hr. apply (deref_alloc_old w df' x r Hr).
  - apply (deref_alloc_old w df' df _ D).
Qed.

(** C10. Projection drops provenance: whatever [starfile] the source
    document carries, the document returned by [iloc] has [starfile = None],
    while its optics reference is the one of the source. *)
Theorem iloc_drops_starfile (w w' : world) (self d' : RelionMetaData)
    (idxs : list Z) :
  iloc w self idxs = Ok (w', d') ->
  starfile d' = None /\ df_optics d' = df_optics self.
Proof.
  unfold iloc. destruct (deref w (df_particles self)) as [e|df]; simpl;
    [discriminate|].
  destruct (df_iloc df idxs) as [e|df']; simpl; [discriminate|].
  intros E. inversion E; subst. simpl. split; reflexivity.
Qed.

End Projection.

(** ** Layout detection *)

Section Detection.

Lemma check_version_skip (line : str) (f : list str) :
  marker line = None -> check_version (line :: f) = check_version f.
Proof.
  unfold marker, first_word. cbn [check_version].
  destruct (split (strip line)) as [|word ws] eqn:E; cbn [hd_error];
    [reflexivity|].
  destruct (str_eqb word (lit "data_optics")); [discriminate|].
  destruct (str_eqb word (lit "data_")); [discriminate|]. intros _.
  destruct word as [|c word].
  - exfalso. now apply (split_head_nonempty _ _ _ E).
  - now destruct (chr_eqb c "#").
Qed.

Lemma check_version_marker (line : str) (f : list str) (b : bool) :
  marker line = Some b -> check_version (line :: f) = Ok (Some b).
Proof.
  unfold marker, first_word. cbn [check_version].
  destruct (split (strip line)) as [|word ws]; cbn [hd_error];
    [discriminate|].
  destruct (str_eqb word (lit "data_optics")); [congruence|].
  destruct (str_eqb word (lit "data_")); [congruence|discriminate].
Qed.

Lemma check_version_none (f : list str) :
  Forall (fun line => marker line = None) f -> check_version f = Ok None.
Proof.
  induction 1 as [|line f H _ IH]; [reflexivity|].
  now rewrite check_version_skip.
Qed.

Lemma check_version_first (pre : list str) (line : str) (post : list str)
    (b : bool) :
  Forall (fun l => marker l = None) pre -> marker line = Some b ->
  check_version (pre ++ line :: post) = Ok (Some b).
Proof.
  induction 1 as [|l pre H _ IH]; intros M; simpl app.
  - now apply check_version_marker.
  - rewrite check_version_skip by assumption. now apply IH.
Qed.

(** A comment word is not a marker. *)
Lemma comment_not_marker (word : str) :
  startswith word (lit "#") = true ->
  str_eqb word (lit "data_optics") = false /\ str_eqb word (lit "data_") = false.
Proof.
  destruct word as [|c word]; [discriminate|].
  cbn [startswith lit list_ascii_of_string].
  destruct (chr_eqb c "#") eqn:H; [|discriminate]. intros _.
  apply chr_eqb_eq in H. subst c. split; reflexivity.
Qed.

Lemma first_meaningful_marker (f : list str) (word : str) (b : bool) :
  first_meaningful_token f = Some word ->
  (if str_eqb word (lit "data_optics") then Some true
   else if str_eqb word (lit "data_") then Some false else None) = Some b ->
  check_version f = Ok (Some b).
Proof.
  intros T M. induction f as [|line f IH]; [discriminate|].
  cbn [first_meaningful_token] in T. unfold first_word in T.
  destruct (split (strip line)) as [|w ws] eqn:E; cbn [hd_error] in T.
  - rewrite check_version_skip; [auto|]. unfold marker, first_word.
    now rewrite E.
  - destruct (startswith w (lit "#")) eqn:C.
    + rewrite check_version_skip; [auto|]. unfold marker, first_word.
      rewrite E. cbn [hd_error].
      destruct (comment_not_marker _ C) as [-> ->]. reflexivity.
    + inversion T; subst w. apply check_version_marker.
      unfold marker, first_word. rewrite E. exact M.
Qed.

(** C2 (amended). Layout detection: [load] fails on the assertion that
    closes the version check when no line of the file has [data_optics] or
    [data_] as its first word.  A line whose first word is anything else is
    passed over, as blank and comment lines are: the layout is that of the
    first line whose first word is a marker, whatever precedes it. *)
Theorem layout_detection (w : world) (starfile text : str) :
  lookup (files w) starfile = Some text ->
  (Forall (fun line => marker line = None) (readlines text) ->
   load w starfile = Raise (invalid_starfile starfile))
  /\
  (forall pre line post,
     readlines text = pre ++ line :: post ->
     Forall (fun l => marker l = None) pre ->
     (marker line = Some true ->
      load w starfile =
        ('(w', df_particles, df_optics) <- _load_relion31 w starfile ;;
         Ok (w', __init__ df_particles (Some df_optics) (Some starfile))))
     /\
     (marker line = Some false ->
      load w starfile =
        ('(w', df_particles) <- _load_relion w starfile ;;
         Ok (w', __init__ df_particles None (Some starfile))))).
Proof.
  intros L. split.
  - intros H. unfold load, open_read. rewrite L. simpl.
    now rewrite check_version_none.
  - intros pre line post E P. split; intros M;
      unfold load, open_read; rewrite L; simpl; rewrite E;
      rewrite (check_version_first pre line post _ P M); reflexivity.
Qed.

End Detection.

(** ** Loading *)

Section Loading.

(** One step through a sequence of binds that is known to succeed. *)
Ltac bind_ok H :=
  match type of H with
  | bind ?m _ = Ok _ =>
      let E := fresh "E" in
      destruct m as [?|?] eqn:E; cbn [bind] in H; [discriminate H|]
  end.

Lemma _load_relion31_refs (w w' : world) (starfile : str) (p o : ref) :
  _load_relion31 w starfile = Ok (w', p, o) ->
  exists df_o df_p,
    heap w' = heap w ++ [df_o; df_p] /\ files w' = files w /\
    o = length (heap w) /\ p = S (length (heap w)).
Proof.
  unfold _load_relion31. intros H.
  bind_ok H. bind_ok H. destruct p0 as [[ho d_o] f].
  bind_ok H. destruct p0 as [[hp d_p] f'].
  bind_ok H. cbn [alloc] in H. bind_ok H. cbn [alloc] in H.
  inversion H; subst; clear H. cbn [heap files]. exists d, d0.
  rewrite <- app_assoc, length_app. cbn. repeat split; lia.
Qed.

Lemma _load_relion_refs (w w' : world) (starfile : str) (p : ref) :
  _load_relion w starfile = Ok (w', p) ->
  exists df_p,
    heap w' = heap w ++ [df_p] /\ files w' = files w /\ p = length (heap w).
Proof.
  unfold _load_relion. intros H.
  bind_ok H. bind_ok H. destruct p0 as [[hp d_p] f]. bind_ok H.
  unfold alloc in H. inversion H; subst; clear H. cbn [heap files].
  exists d. repeat split.
Qed.

(** C3. Layout fidelity: when [load] succeeds on a file whose first
    meaningful token is [data_optics], the document has an optics table (a
    reference to a frame of the store); when it succeeds on a file whose
    first meaningful token is [data_], the document has none. *)
Theorem layout_fidelity (w w' : world) (starfile text : str)
    (d : RelionMetaData) :
  lookup (files w) starfile = Some text ->
  load w starfile = Ok (w', d) ->
  (first_meaningful_token (readlines text) = Some (lit "data_optics") ->
   exists r df, df_optics d = Some r /\ deref w' r = Ok df)
  /\
  (first_meaningful_token (readlines text) = Some (lit "data_") ->
   df_optics d = None).
Proof.
  intros L H. unfold load, open_read in H. rewrite L in H. cbn [bind] in H.
  split; intros T.
  - rewrite (first_meaningful_marker _ _ true T eq_refl) in H. cbn [bind] in H.
    bind_ok H. destruct p as [[w1 p] o]. inversion H; subst; clear H.
    destruct (_load_relion31_refs _ _ _ _ _ E) as (df_o & df_p & Hh & _ & -> & _).
    exists (length (heap w)), df_o. split; [reflexivity|].
    unfold deref. rewrite Hh, nth_error_app2 by lia.
    now rewrite Nat.sub_diag.
  - rewrite (first_meaningful_marker _ _ false T eq_refl) in H.
    cbn [bind] in H. bind_ok H. destruct p as [w1 p].
    inversion H; subst; clear H. reflexivity.
Qed.

End Loading.

(** ** Decoding one block *)

Section Decode.

Lemma seek_missing (prefix : str) (line : option str) (f : list str) :
  Forall (fun l => startswith l prefix = false) f ->
  seek prefix line f = (last_read line f, []).
Proof.
  intros H. revert line. induction H as [|l f Hl _ IH]; intros line; simpl.
  - reflexivity.
  - rewrite Hl. apply IH.
Qed.

Lemma seek_found (prefix : str) (line : option str) (pre : list str)
    (l : str) (post : list str) :
  Forall (fun l => startswith l prefix = false) pre ->
  startswith l prefix = true ->
  seek prefix line (pre ++ l :: post) = (Some l, post).
Proof.
  intros H Hl. revert line. induction H as [|x pre Hx _ IH]; intros line; simpl.
  - now rewrite Hl.
  - rewrite Hx. apply IH.
Qed.

Lemma np_array_one_row (row : list str) :
  np_array [row]
  = Ok {| shape := [1; length row]; cells := [map rstrip_nul row] |}.
Proof. reflexivity. Qed.

Lemma read_block_end_of_stream (line : option str) :
  (let '(line, f) := seek (lit "loop_") line [] in
   '(headers, body, f) <-
     ('(headers, line, f) <- read_headers [] line f ;;
      first <- match line with
               | Some l => Ok (split (strip l))
               | None => Raise (UnboundLocalError (lit "line"))
               end ;;
      let '(body, f) := read_body [first] f in
      Ok (headers, body, f)) ;;
   body <- np_array body ;;
   ncols <- shape_at body 1 ;;
   if length headers =? ncols then Ok (headers, body, f)
   else Raise (AssertionError None))
  = marker_missing line.
Proof.
  cbn [seek read_headers bind]. destruct line as [l|]; [|reflexivity].
  cbn [bind read_body marker_missing]. rewrite np_array_one_row.
  destruct (split (strip l)); reflexivity.
Qed.

(** C4 (amended). A missing marker raises no error of its own.  When the
    stream ends before a line that begins with the block name, or after
    such a line but before one that begins with [loop_], the last line read
    is taken as the only body row: [_read_block] raises [UnboundLocalError]
    when no line was read at all, fails the header-count assertion when
    that line has at least one field, and returns an empty header list with
    one empty row when that line is blank. *)
Theorem decode_marker_missing (f : list str) (blockname : str) :
  (Forall (fun l => startswith l blockname = false) f ->
   _read_block f blockname = marker_missing (last_read None f))
  /\
  (forall pre l post,
     f = pre ++ l :: post ->
     Forall (fun x => startswith x blockname = false) pre ->
     startswith l blockname = true ->
     Forall (fun x => startswith x (lit "loop_") = false) post ->
     _read_block f blockname = marker_missing (last_read (Some l) post)).
Proof.
  split.
  - intros H. unfold _read_block, collect. rewrite (seek_missing _ _ _ H).
    apply read_block_end_of_stream.
  - intros pre l post -> Hpre Hl Hpost. unfold _read_block, collect.
    rewrite (seek_found _ _ _ _ _ Hpre Hl), (seek_missing _ _ _ Hpost).
    apply read_block_end_of_stream.
Qed.

Lemma np_array_cells (body : list (list str)) (a : ndarray) (k : nat) :
  np_array body = Ok a -> shape_at a 1 = Ok k ->
  shape a = [length (cells a); k] /\
  Forall (fun row => length row = k) body /\
  cells a = map (map rstrip_nul) body.
Proof.
  unfold np_array. destruct body as [|r rest].
  - intros E. inversion E; subst. discriminate.
  - destruct (forallb _ rest) eqn:U; [|discriminate].
    intros E. inversion E; subst; clear E. cbn. intros K.
    inversion K; subst; clear K. repeat split.
    + now rewrite length_map.
    + constructor; [reflexivity|]. rewrite forallb_forall in U.
      apply Forall_forall. intros x Hx. apply Nat.eqb_eq. now apply U.
Qed.

(** C5 (amended). Arity invariant: every table returned by [_read_block]
    is rectangular, each row having as many fields as there are headers;
    and when a collected row has a field count that differs from the header
    count, [_read_block] fails, either when the array is built
    ([ValueError], rows of unequal lengths) or on its final assertion,
    which carries no message: neither names the row. *)
Theorem decode_arity (f : list str) (blockname : str) :
  (forall headers body rest,
     _read_block f blockname = Ok (headers, body, rest) ->
     shape body = [length (cells body); length headers] /\
     Forall (fun row => length row = length headers) (cells body))
  /\
  (forall headers body rest,
     collect f blockname = Ok (headers, body, rest) ->
     Exists (fun row => length row <> length headers) body ->
     _read_block f blockname = Raise ValueError \/
     _read_block f blockname = Raise (AssertionError None)).
Proof.
  unfold _read_block. split.
  - intros headers body rest H.
    destruct (collect f blockname) as [e|[[hs rs] f']]; cbn [bind] in H;
      [discriminate|].
    destruct (np_array rs) as [e|a] eqn:A; cbn [bind] in H; [discriminate|].
    destruct (shape_at a 1) as [e|k] eqn:K; cbn [bind] in H; [discriminate|].
    destruct (length hs =? k) eqn:L; [|discriminate].
    inversion H; subst; clear H. apply Nat.eqb_eq in L. subst k.
    destruct (np_array_cells _ _ _ A K) as (S & F & C). split; [exact S|].
    rewrite C. apply Forall_map. revert F. apply Forall_impl.
    intros row. now rewrite length_map.
  - intros headers body rest C X. rewrite C. cbn [bind].
    destruct (np_array body) as [e|a] eqn:A.
    + left. unfold np_array in A. destruct body as [|r rs]; [discriminate|].
      destruct (forallb _ rs); [discriminate|]. now inversion A.
    + right. cbn [bind]. destruct (shape_at a 1) as [e|k] eqn:K.
      * exfalso. unfold np_array in A. destruct body as [|r rs].
        -- inversion X.
        -- destruct (forallb _ rs); [|discriminate]. inversion A; subst.
           discriminate.
      * cbn [bind]. destruct (np_array_cells _ _ _ A K) as (_ & F & _).
        destruct (length headers =? k) eqn:L; [|reflexivity].
        apply Nat.eqb_eq in L. exfalso. apply Exists_exists in X.
        destruct X as (row & In_row & Ne). rewrite Forall_forall in F.
        apply Ne. rewrite L. now apply F.
Qed.

Lemma read_headers_run (hdrs : list str) (acc : list str)
    (line : option str) (stop : str) (post : list str) :
  Forall (fun l => startswith l (lit "_") = true) hdrs ->
  startswith stop (lit "_") = false ->
  exists names,
    length names = length hdrs /\
    read_headers acc line (hdrs ++ stop :: post)
    = Ok (acc ++ names, Some stop, post).
Proof.
  intros H S. revert acc line.
  induction H as [|l hdrs Hl _ IH]; intros acc line.
  - exists []. cbn [app read_headers]. rewrite S, app_nil_r. now split.
  - cbn [app read_headers]. rewrite Hl.
    destruct (split (strip l)) as [|name ws] eqn:E.
    + exfalso. rewrite split_strip in E. apply split_nil, strip_nil in E.
      destruct l as [|c l]; [discriminate|]. cbn in Hl, E.
      apply andb_true_iff in E. destruct E as [E _].
      destruct (chr_eqb c "_") eqn:C; [|discriminate].
      apply chr_eqb_eq in C. subst c. discriminate.
    + destruct (IH (acc ++ [name]) (Some l)) as (names & Ln & R).
      exists (name :: names). split; [cbn; now rewrite Ln|].
      rewrite R. now rewrite <- app_assoc.
Qed.

Lemma blank_not_label (blank : str) :
  strip blank = [] -> startswith blank (lit "_") = false.
Proof.
  intros B. apply strip_nil in B. destruct blank as [|c blank]; [reflexivity|].
  cbn in B |- *. apply andb_true_iff in B. destruct B as [B _].
  destruct (chr_eqb c "_") eqn:C; [|reflexivity].
  apply chr_eqb_eq in C. subst c. discriminate.
Qed.

Lemma read_body_extends (acc : list (list str)) (f : list str) :
  exists more, fst (read_body acc f) = acc ++ more.
Proof.
  revert acc. induction f as [|l f IH]; intros acc; cbn [read_body].
  - exists []. now rewrite app_nil_r.
  - destruct (str_eqb (strip l) (lit "")).
    + exists []. now rewrite app_nil_r.
    + destruct (IH (acc ++ [split (strip l)])) as (more & E).
      exists (split (strip l) :: more). rewrite E. now rewrite <- app_assoc.
Qed.

(** C9 (amended). Zero-row blocks are refused.  When the header lines of a
    block (at least one) are immediately followed by a blank line,
    [_read_block] takes the blank line as a first row with no field and
    fails: on its header-count assertion when the stream ends there or
    another blank line follows, and when the array is built ([ValueError])
    when a non-blank line follows, which is read as a further row. *)
Theorem decode_zero_rows (pre : list str) (name : str) (mid : list str)
    (loop : str) (hdrs : list str) (blank : str) (post : list str)
    (blockname : str) :
  Forall (fun l => startswith l blockname = false) pre ->
  startswith name blockname = true ->
  Forall (fun l => startswith l (lit "loop_") = false) mid ->
  startswith loop (lit "loop_") = true ->
  hdrs <> [] ->
  Forall (fun l => startswith l (lit "_") = true) hdrs ->
  strip blank = [] ->
  _read_block (pre ++ name :: mid ++ loop :: hdrs ++ blank :: post) blockname
  = match post with
    | [] => Raise (AssertionError None)
    | l :: _ =>
        if str_eqb (strip l) (lit "") then Raise (AssertionError None)
        else Raise ValueError
    end.
Proof.
  intros Hpre Hname Hmid Hloop Hne Hh Hb.
  unfold _read_block, collect.
  rewrite (seek_found _ _ _ _ _ Hpre Hname), (seek_found _ _ _ _ _ Hmid Hloop).
  destruct (read_headers_run hdrs [] (Some loop) blank post Hh
              (blank_not_label _ Hb)) as (names & Ln & R).
  rewrite R. cbn [bind app]. rewrite Hb. cbn [split split_from].
  assert (N : (length names =? 0) = false).
  { apply Nat.eqb_neq. rewrite Ln. destruct hdrs; [congruence|discriminate]. }
  destruct post as [|l post]; cbn [read_body].
  - cbn. now rewrite N.
  - destruct (str_eqb (strip l) (lit "")) eqn:B.
    + cbn. now rewrite N.
    + destruct (read_body_extends ([[]] ++ [split (strip l)]) post)
        as (more & E).
      destruct (read_body _ post) as [body f']. cbn [fst] in E. subst body.
      cbn [app np_array forallb]. destruct (split (strip l)) eqn:S.
      * exfalso. rewrite split_strip in S. apply split_nil in S.
        rewrite S in B. discriminate.
      * reflexivity.
Qed.

End Decode.

(** ** Writing *)

Section Writing.

Lemma distinct_NoDup (labels : list Z) :
  distinct labels = true -> NoDup labels.
Proof.
  induction labels as [|i labels IH]; cbn [distinct]; intros H.
  - constructor.
  - apply andb_true_iff in H. destruct H as [N D]. constructor; [|auto].
    intros I. apply negb_true_iff in N.
    assert (X : existsb (Z.eqb i) labels = true).
    { apply existsb_exists. exists i. split; [exact I | apply Z.eqb_refl]. }
    congruence.
Qed.














End Writing.

(** ** Reading back what was written *)

Section RoundTrip.

Lemma universal_newlines_no_CR (s : str) :
  ~ In CR s -> universal_newlines s = s.
Proof.
  induction s as [|c s IH]; intros N; cbn [universal_newlines]; [reflexivity|].
  destruct (chr_eqb c CR) eqn:E.
  - apply chr_eqb_eq in E. subst c. exfalso. apply N. now left.
  - rewrite IH; [reflexivity|]. intros I. apply N. now right.
Qed.

Lemma lines_from_run (l cur rest : str) :
  forallb plain l = true ->
  lines_from cur (l ++ nl ++ rest) = (cur ++ l ++ nl) :: lines_from [] rest.
Proof.
  revert cur. induction l as [|c l IH]; intros cur P.
  - cbn. reflexivity.
  - cbn [forallb] in P. apply andb_true_iff in P. destruct P as [Pc Pl].
    cbn [app lines_from]. unfold plain in Pc. apply andb_true_iff in Pc.
    destruct Pc as [Pc _]. apply negb_true_iff in Pc. rewrite Pc.
    rewrite IH by assumption. now rewrite <- app_assoc.
Qed.

Lemma lines_from_unlines (ls : list str) :
  Forall (fun l => forallb plain l = true) ls ->
  lines_from [] (unlines ls) = map (fun l => l ++ nl) ls.
Proof.
  induction 1 as [|l ls P _ IH]; [reflexivity|].
  change (unlines (l :: ls)) with ((l ++ nl) ++ unlines ls).
  rewrite <- app_assoc, lines_from_run by assumption. cbn [map app].
  now rewrite IH.
Qed.

Lemma unlines_no_CR (ls : list str) :
  Forall (fun l => forallb plain l = true) ls -> ~ In CR (unlines ls).
Proof.
  induction 1 as [|l ls P _ IH]; [intros []|].
  change (unlines (l :: ls)) with ((l ++ nl) ++ unlines ls).
  intros I. apply in_app_or in I. destruct I as [I|I]; [|auto].
  apply in_app_or in I. destruct I as [I|I].
  - rewrite forallb_forall in P. specialize (P _ I). discriminate.
  - destruct I as [I|[]]. discriminate.
Qed.

Lemma readlines_unlines (ls : list str) :
  Forall (fun l => forallb plain l = true) ls ->
  readlines (unlines ls) = map (fun l => l ++ nl) ls.
Proof.
  intros P. unfold readlines.
  rewrite universal_newlines_no_CR by now apply unlines_no_CR.
  now apply lines_from_unlines.
Qed.










Lemma label_from_values (start : Z) (vals : list (list str)) :
  map snd (label_from start vals) = vals.
Proof.
  revert start. induction vals as [|v vals IH]; intros start; cbn;
    [reflexivity|]. now rewrite IH.
Qed.












End RoundTrip.

Section RoundTripClaim.


End RoundTripClaim.

(** ** The claims on the example data *)

Section OnExamples.

Import Examples.

(** C6 on [doc]: positions [2; 0; 2] select rows 2, 0 and 2 of the three
    rows, in this order; position 5 is refused. *)
Lemma iloc_selects_rows_witness :
  (exists w' d' df',
     iloc doc_world doc [2; 0; 2]%Z = Ok (w', d') /\
     df_particles d' <> df_particles doc /\
     deref w' (df_particles d') = Ok df' /\
     columns df' = columns three_rows /\
     rows df' = [(2%Z, [lit "003.mrc"; lit "11000"]);
                 (0%Z, [lit "001.mrc"; lit "10000"]);
                 (2%Z, [lit "003.mrc"; lit "11000"])] /\
     values df' = [[lit "003.mrc"; lit "11000"];
                   [lit "001.mrc"; lit "10000"];
                   [lit "003.mrc"; lit "11000"]])
  /\ iloc doc_world doc [5]%Z = Raise IndexError.
Proof.
  split.
  - apply (proj1 (iloc_selects_rows doc_world doc three_rows [2; 0; 2]%Z
                    eq_refl)).
    repeat constructor; cbn; lia.
  - apply (proj2 (iloc_selects_rows doc_world doc three_rows [5]%Z eq_refl)).
    left. cbn. lia.
Defined.

(** C7 on [doc]. *)
Lemma iloc_frame_witness :
  df_optics (snd projected) = df_optics doc /\
  (forall r df, deref doc_world r = Ok df -> deref (fst projected) r = Ok df) /\
  deref (fst projected) (df_particles doc) = deref doc_world (df_particles doc) /\
  df_particles (snd projected) = length (heap doc_world) /\
  files (fst projected) = files doc_world.
Proof.
  apply (iloc_frame doc_world (fst projected) doc (snd projected) [2; 0; 2]%Z).
  reflexivity.
Defined.

(** C10 on [doc], which carries the path [particles.star]. *)
Lemma iloc_drops_starfile_witness :
  starfile (snd projected) = None /\
  df_optics (snd projected) = df_optics doc.
Proof.
  apply (iloc_drops_starfile doc_world (fst projected) doc (snd projected)
           [2; 0; 2]%Z).
  reflexivity.
Defined.

(** C2, as stated, fails on [foo_text]: its first meaningful token is
    [foo_bar], and [load] succeeds, with the legacy block that follows. *)
Lemma layout_detection_counterexample :
  first_meaningful_token (readlines foo_text) = Some (lit "foo_bar") /\
  load foo_world (lit "foo.star")
  = Ok ({| heap := [{| columns := [lit "_a"]; rows := [(0%Z, [lit "1"])] |}];
           files := files foo_world |},
        {| df_particles := 0; df_optics := None;
           starfile := Some (lit "foo.star") |}).
Proof. split; reflexivity. Qed.

(** C2 (amended) on a file without marker, and on [foo_text]. *)
Lemma layout_detection_witness :
  load junk_world (lit "junk.star") = Raise (invalid_starfile (lit "junk.star"))
  /\
  load foo_world (lit "foo.star")
  = ('(w', df_particles) <- _load_relion foo_world (lit "foo.star") ;;
     Ok (w', __init__ df_particles None (Some (lit "foo.star")))).
Proof.
  split.
  - apply (proj1 (layout_detection junk_world (lit "junk.star")
                    (unlines [lit "foo_bar"; lit "# data_"]) eq_refl)).
    repeat constructor.
  - apply (proj2 (layout_detection foo_world (lit "foo.star") foo_text eq_refl)
             [lit "foo_bar" ++ nl] (lit "data_" ++ nl)
             (map (fun l => l ++ nl)
                [lit ""; lit "loop_"; lit "_a"; lit "1"; lit ""])).
    + reflexivity.
    + repeat constructor.
    + reflexivity.
Defined.

(** C3 on a modern and on a legacy file. *)
Lemma layout_fidelity_witness :
  (exists r df,
     df_optics (snd loaded_modern) = Some r /\
     deref (fst loaded_modern) r = Ok df)
  /\ df_optics (snd loaded_legacy) = None.
Proof.
  split.
  - apply (proj1 (layout_fidelity star_world (fst loaded_modern)
                    (lit "modern.star") modern_text (snd loaded_modern)
                    eq_refl eq_refl)).
    reflexivity.
  - apply (proj2 (layout_fidelity star_world (fst loaded_legacy)
                    (lit "legacy.star") legacy_text (snd loaded_legacy)
                    eq_refl eq_refl)).
    reflexivity.
Defined.

(** C4, as stated, fails on [no_block], where no line begins with the
    block name, and on [no_loop], where no line begins with [loop_] after
    the block name: in both [_read_block] returns a table. *)
Lemma decode_marker_missing_counterexample :
  Forall (fun l => startswith l (lit "data_") = false) no_block /\
  _read_block no_block (lit "data_")
  = Ok ([], {| shape := [1; 0]; cells := [[]] |}, [])
  /\
  Forall (fun l => startswith l (lit "loop_") = false) no_loop /\
  _read_block no_loop (lit "data_")
  = Ok ([], {| shape := [1; 0]; cells := [[]] |}, []).
Proof. repeat split; repeat constructor. Qed.

(** C4 (amended) on the two streams, and on the empty stream. *)
Lemma decode_marker_missing_witness :
  _read_block no_block (lit "data_")
  = Ok ([], {| shape := [1; 0]; cells := [[]] |}, [])
  /\ _read_block no_loop (lit "data_")
     = Ok ([], {| shape := [1; 0]; cells := [[]] |}, [])
  /\ _read_block [] (lit "data_") = Raise (UnboundLocalError (lit "line"))
  /\ _read_block [lit "foo" ++ nl] (lit "data_") = Raise (AssertionError None).
Proof.
  split; [|split; [|split]].
  - apply (proj1 (decode_marker_missing no_block (lit "data_"))).
    repeat constructor.
  - apply (proj2 (decode_marker_missing no_loop (lit "data_"))
             [] (lit "data_" ++ nl) [nl] eq_refl); repeat constructor.
  - apply (proj1 (decode_marker_missing [] (lit "data_"))). constructor.
  - apply (proj1 (decode_marker_missing [lit "foo" ++ nl] (lit "data_"))).
    repeat constructor.
Defined.

(** C5, as stated, fails on [short_rows]: two headers, rows of one field;
    the error raised is the bare assertion, which names no row. *)
Lemma decode_arity_counterexample :
  collect short_rows (lit "data_")
  = Ok ([lit "_a"; lit "_b"], [[lit "1"]; [lit "2"]], [])
  /\ _read_block short_rows (lit "data_") = Raise (AssertionError None).
Proof. split; reflexivity. Qed.

(** C5 (amended) on the lines of [legacy_text] and on [short_rows]. *)
Lemma decode_arity_witness :
  (forall headers body rest,
     _read_block (readlines legacy_text) (lit "data_")
     = Ok (headers, body, rest) ->
     shape body = [length (cells body); length headers] /\
     Forall (fun row => length row = length headers) (cells body))
  /\ (_read_block short_rows (lit "data_") = Raise ValueError \/
      _read_block short_rows (lit "data_") = Raise (AssertionError None)).
Proof.
  split.
  - apply (proj1 (decode_arity (readlines legacy_text) (lit "data_"))).
  - apply (proj2 (decode_arity short_rows (lit "data_"))
             [lit "_a"; lit "_b"] [[lit "1"]; [lit "2"]] [] eq_refl).
    left. cbn. discriminate.
Defined.

(** C9, as stated, fails on [zero_rows]: two header lines followed by a
    blank line; [_read_block] fails. *)
Lemma decode_zero_rows_counterexample :
  _read_block zero_rows (lit "data_") = Raise (AssertionError None).
Proof. reflexivity. Qed.

(** C9 (amended) on [zero_rows]. *)
Lemma decode_zero_rows_witness :
  _read_block zero_rows (lit "data_") = Raise (AssertionError None).
Proof.
  apply (decode_zero_rows [] (lit "data_" ++ nl) [nl] (lit "loop_" ++ nl)
           [lit "_a" ++ nl; lit "_b" ++ nl] nl [] (lit "data_"));
    try reflexivity; try (repeat constructor); discriminate.
Defined.

(** The text of [no_columns] as the claim describes it has no line between
    the [loop_] line and the two (empty) row lines. *)
Lemma no_columns_lines :
  document_lines noon None no_columns
  = [provenance noon; lit ""; lit "data_"; lit ""; lit "loop_";
     lit ""; lit ""; lit ""].
Proof. reflexivity. Qed.


(** With a repeated row label, [df.loc[i]] is a frame and [join] runs over
    its column labels: the rows labelled [0] are written as the header. *)
Lemma write_repeated_labels :
  written repeated_labels
  = Ok (Some (unlines [provenance noon; lit ""; lit "data_"; lit "";
                       lit "loop_"; lit "_rlnImageName"; lit "_rlnDefocusU";
                       lit "_rlnImageName _rlnDefocusU";
                       lit "_rlnImageName _rlnDefocusU";
                       lit "002.mrc 10500"; lit ""])).
Proof. reflexivity. Qed.



(** With a repeated row label the file written cannot be loaded. *)
Lemma reload_repeated_labels :
  rows_of_tokens repeated_labels = true /\
  reload repeated_labels = Raise (AssertionError None).
Proof. split; reflexivity. Qed.


End OnExamples.

(** ** More on decoding *)

Section DecodeMore.

Lemma check_version_first_marker (f : list str) :
  check_version f = Ok (first_marker f).
Proof.
  induction f as [|line f IH]; [reflexivity|].
  cbn [first_marker]. destruct (marker line) as [b|] eqn:M.
  - now apply check_version_marker.
  - now rewrite check_version_skip.
Qed.

Lemma read_headers_names (hdrs acc : list str) (line : option str) :
  Forall (fun l => startswith l (lit "_") = true) hdrs ->
  read_headers acc line hdrs
  = Ok (acc ++ map header_name hdrs, last_read line hdrs, []).
Proof.
  intros H. revert acc line.
  induction H as [|l hdrs Hl _ IH]; intros acc line.
  - cbn. now rewrite app_nil_r.
  - cbn [read_headers map last_read]. rewrite Hl. unfold header_name at 1.
    destruct (split (strip l)) as [|name ws] eqn:E.
    + exfalso. rewrite split_strip in E. apply split_nil, strip_nil in E.
      destruct l as [|c l]; [discriminate|]. cbn in Hl, E.
      apply andb_true_iff in E. destruct E as [E _].
      destruct (chr_eqb c "_") eqn:C; [|discriminate].
      apply chr_eqb_eq in C. subst c. discriminate.
    + rewrite IH. now rewrite <- app_assoc.
Qed.

Lemma read_headers_stop (hdrs acc : list str) (line : option str)
    (stop : str) (post : list str) :
  Forall (fun l => startswith l (lit "_") = true) hdrs ->
  startswith stop (lit "_") = false ->
  read_headers acc line (hdrs ++ stop :: post)
  = Ok (acc ++ map header_name hdrs, Some stop, post).
Proof.
  intros H S. revert acc line.
  induction H as [|l hdrs Hl _ IH]; intros acc line.
  - cbn [app map read_headers]. now rewrite S, app_nil_r.
  - cbn [app read_headers map]. rewrite Hl. unfold header_name at 1.
    destruct (split (strip l)) as [|name ws] eqn:E.
    + exfalso. rewrite split_strip in E. apply split_nil, strip_nil in E.
      destruct l as [|c l]; [discriminate|]. cbn in Hl, E.
      apply andb_true_iff in E. destruct E as [E _].
      destruct (chr_eqb c "_") eqn:C; [|discriminate].
      apply chr_eqb_eq in C. subst c. discriminate.
    + rewrite IH. now rewrite <- app_assoc.
Qed.

Lemma str_eqb_nil (s : str) : str_eqb s (lit "") = true <-> s = [].
Proof. change (lit "") with (@nil ascii). apply str_eqb_eq. Qed.

Lemma read_body_lines (more : list str) (acc : list (list str))
    (tail : list str) :
  Forall (fun l => strip l <> []) more ->
  tail = [] \/ (exists blank post, tail = blank :: post /\ strip blank = []) ->
  read_body acc (more ++ tail) = (acc ++ map fields_of more, tl tail).
Proof.
  intros H T. revert acc. induction H as [|l more Hl _ IH]; intros acc.
  - cbn [app map]. rewrite app_nil_r.
    destruct T as [->|(blank & post & -> & B)]; [reflexivity|].
    cbn [read_body tl]. now rewrite B.
  - cbn [app map read_body].
    destruct (str_eqb (strip l) (lit "")) eqn:E.
    + apply str_eqb_nil in E. contradiction.
    + rewrite IH. unfold fields_of at 2. now rewrite <- app_assoc.
Qed.

Lemma np_array_uniform (k : nat) (r : list str) (rs : list (list str)) :
  Forall (fun row => length row = k) (r :: rs) ->
  np_array (r :: rs)
  = Ok {| shape := [length (r :: rs); k];
          cells := map (map rstrip_nul) (r :: rs) |}.
Proof.
  intros H. inversion H as [|? ? Lr Hrs]; subst x l. unfold np_array.
  replace (forallb (fun r' => length r' =? length r) rs) with true.
  - now rewrite Lr.
  - symmetry. apply forallb_forall. intros x I. rewrite Forall_forall in Hrs.
    apply Nat.eqb_eq. rewrite (Hrs x I). now symmetry.
Qed.

(** X1. Decoding a block.  In a stream where the first line that begins
    with the block name is followed, after any lines that do not begin with
    [loop_], by a [loop_] line, then by header lines (all beginning with an
    underscore), then by a line that does not begin with an underscore and
    further non-blank lines, up to a blank line or the end of the stream,
    and where each of these body lines splits into as many fields as there
    are header lines, [_read_block] returns the first word of each header
    line, the fields of each body line (split at any run of white space),
    and leaves the stream just after the blank line. *)
Theorem read_block_decodes (pre : list str) (name : str) (mid : list str)
    (loop : str) (hdrs : list str) (first : str) (more tail : list str)
    (blockname : str) :
  Forall (fun l => startswith l blockname = false) pre ->
  startswith name blockname = true ->
  Forall (fun l => startswith l (lit "loop_") = false) mid ->
  startswith loop (lit "loop_") = true ->
  Forall (fun l => startswith l (lit "_") = true) hdrs ->
  startswith first (lit "_") = false ->
  Forall (fun l => strip l <> []) more ->
  tail = [] \/ (exists blank post, tail = blank :: post /\ strip blank = []) ->
  Forall (fun l => length (fields_of l) = length hdrs) (first :: more) ->
  _read_block (pre ++ name :: mid ++ loop :: hdrs ++ first :: more ++ tail)
    blockname
  = Ok (map header_name hdrs,
        {| shape := [S (length more); length hdrs];
           cells := map (fun l => map rstrip_nul (fields_of l))
                      (first :: more) |},
        tl tail).
Proof.
  intros Hpre Hname Hmid Hloop Hh Hf Hm Ht Hk.
  unfold _read_block, collect.
  rewrite (seek_found _ _ _ _ _ Hpre Hname), (seek_found _ _ _ _ _ Hmid Hloop).
  rewrite read_headers_stop by assumption. cbn [bind app].
  rewrite (read_body_lines more _ tail Hm Ht). cbn [bind app].
  change (split (strip first) :: map fields_of more)
    with (map fields_of (first :: more)).
  assert (U : Forall (fun row => length row = length hdrs)
                (map fields_of (first :: more))).
  { apply Forall_map. exact Hk. }
  cbn [map] in U |- *. rewrite (np_array_uniform (length hdrs)) by exact U.
  cbn [bind shape_at shape nth_error]. rewrite length_map, Nat.eqb_refl.
  cbn [length map]. now rewrite length_map, map_map.
Qed.

(** X2. A block that ends with its header lines.  When the stream ends
    with the header lines, the body loops read nothing and the last header
    line itself is taken as the only row: [_read_block] returns it as a row
    when it has as many words as there are header lines, and fails its
    assertion otherwise. *)
Theorem read_block_headers_at_end (pre : list str) (name : str)
    (mid : list str) (loop : str) (hdrs : list str) (last_hdr : str)
    (blockname : str) :
  Forall (fun l => startswith l blockname = false) pre ->
  startswith name blockname = true ->
  Forall (fun l => startswith l (lit "loop_") = false) mid ->
  startswith loop (lit "loop_") = true ->
  Forall (fun l => startswith l (lit "_") = true) (hdrs ++ [last_hdr]) ->
  _read_block (pre ++ name :: mid ++ loop :: hdrs ++ [last_hdr]) blockname
  = if length (hdrs ++ [last_hdr]) =? length (fields_of last_hdr)
    then Ok (map header_name (hdrs ++ [last_hdr]),
             {| shape := [1; length (fields_of last_hdr)];
                cells := [map rstrip_nul (fields_of last_hdr)] |},
             [])
    else Raise (AssertionError None).
Proof.
  intros Hpre Hname Hmid Hloop Hh.
  unfold _read_block, collect.
  rewrite (seek_found _ _ _ _ _ Hpre Hname), (seek_found _ _ _ _ _ Hmid Hloop).
  rewrite read_headers_names by assumption. cbn [bind app].
  assert (L : last_read (Some loop) (hdrs ++ [last_hdr]) = Some last_hdr).
  { clear. generalize (Some loop). induction hdrs as [|h hdrs IH]; intros o.
    - reflexivity.
    - cbn. apply IH. }
  rewrite L. cbn [bind read_body]. rewrite np_array_one_row.
  cbn [bind shape_at shape nth_error]. rewrite length_map.
  unfold fields_of. reflexivity.
Qed.

Lemma seek_line (prefix : str) (f : list str) (line : option str) :
  fst (seek prefix line f) = None -> line = None /\ f = [].
Proof.
  revert line. induction f as [|l f IH]; intros line; cbn [seek].
  - cbn. now intros ->.
  - destruct (startswith l prefix); cbn [fst]; [discriminate|].
    intros H. now destruct (IH _ H).
Qed.

Lemma label_line_has_word (l : str) :
  startswith l (lit "_") = true -> split (strip l) <> [].
Proof.
  intros Hl E. rewrite split_strip in E. apply split_nil, strip_nil in E.
  destruct l as [|c l]; [discriminate|]. cbn in Hl, E.
  apply andb_true_iff in E. destruct E as [E _].
  destruct (chr_eqb c "_") eqn:C; [|discriminate].
  apply chr_eqb_eq in C. subst c. discriminate.
Qed.

Lemma read_headers_total (f acc : list str) (line : option str) :
  exists hs line' f',
    read_headers acc line f = Ok (hs, line', f') /\
    (line' = None -> line = None /\ f = []).
Proof.
  revert acc line. induction f as [|l f IH]; intros acc line.
  - exists acc, line, []. now split.
  - cbn [read_headers]. destruct (startswith l (lit "_")) eqn:Hl.
    + destruct (split (strip l)) as [|name ws] eqn:E.
      * now destruct (label_line_has_word _ Hl).
      * destruct (IH (acc ++ [name]) (Some l)) as (hs & line' & f' & R & N).
        exists hs, line', f'. split; [exact R|]. intros Z.
        destruct (N Z) as [Z' _]. discriminate.
    + exists acc, (Some l), f. split; [reflexivity | discriminate].
Qed.

Lemma collect_body (f : list str) (blockname : str) (hs : list str)
    (body : list (list str)) (rest : list str) :
  collect f blockname = Ok (hs, body, rest) -> body <> [].
Proof.
  unfold collect. destruct (seek blockname None f) as [l1 f1].
  destruct (seek (lit "loop_") l1 f1) as [l2 f2].
  destruct (read_headers [] l2 f2) as [e|[[hs' l3] f3]]; cbn [bind];
    [discriminate|].
  destruct l3 as [l3|]; cbn [bind]; [|discriminate].
  destruct (read_body_extends [split (strip l3)] f3) as (more & E).
  destruct (read_body _ f3) as [b f4]. cbn [fst] in E. subst b.
  intros H. inversion H; subst. discriminate.
Qed.

Lemma collect_raises (f : list str) (blockname : str) (e : exn) :
  collect f blockname = Raise e ->
  e = UnboundLocalError (lit "line") /\ f = [].
Proof.
  unfold collect. destruct (seek blockname None f) as [l1 f1] eqn:S1.
  destruct (seek (lit "loop_") l1 f1) as [l2 f2] eqn:S2.
  destruct (read_headers_total f2 [] l2) as (hs & l3 & f3 & R & N).
  rewrite R. cbn [bind]. destruct l3 as [l3|]; cbn [bind].
  - destruct (read_body _ f3). discriminate.
  - intros H. inversion H; subst. split; [reflexivity|].
    destruct (N eq_refl) as [-> _].
    assert (X : fst (seek (lit "loop_") l1 f1) = None) by now rewrite S2.
    destruct (seek_line _ _ _ X) as [-> _].
    assert (Y : fst (seek blockname None f) = None) by now rewrite S1.
    now destruct (seek_line _ _ _ Y).
Qed.

(** What a successful [_read_block] went through. *)
Lemma read_block_ok (f : list str) (blockname : str) (hs : list str)
    (a : ndarray) (rest : list str) :
  _read_block f blockname = Ok (hs, a, rest) ->
  exists body,
    collect f blockname = Ok (hs, body, rest) /\ body <> [] /\
    shape a = [length body; length hs] /\
    Forall (fun row => length row = length hs) body /\
    cells a = map (map rstrip_nul) body.
Proof.
  unfold _read_block. intros H.
  destruct (collect f blockname) as [e|[[hs' body] f']] eqn:C; cbn [bind] in H;
    [discriminate|].
  destruct (np_array body) as [e|a'] eqn:A; cbn [bind] in H; [discriminate|].
  destruct (shape_at a' 1) as [e|k] eqn:K; cbn [bind] in H; [discriminate|].
  destruct (length hs' =? k) eqn:L; [|discriminate].
  inversion H; subst; clear H. apply Nat.eqb_eq in L. subst k.
  destruct (np_array_cells _ _ _ A K) as (S & F & Cl).
  exists body. repeat split; try assumption.
  - apply (collect_body _ _ _ _ _ C).
  - rewrite S, Cl. now rewrite length_map.
Qed.

Lemma read_block_raises (f : list str) (blockname : str) (e : exn) :
  _read_block f blockname = Raise e ->
  (e = UnboundLocalError (lit "line") /\ f = [])
  \/ (f <> [] /\ (e = ValueError \/ e = AssertionError None)).
Proof.
  unfold _read_block. intros H.
  destruct (collect f blockname) as [e'|[[hs body] f']] eqn:C; cbn [bind] in H.
  - inversion H; subst. left. now apply (collect_raises f blockname).
  - right. split.
    { intros ->. discriminate. }
    pose proof (collect_body _ _ _ _ _ C) as N.
    destruct body as [|r rs]; [congruence|]. unfold np_array in H.
    destruct (forallb _ rs); cbn [bind shape_at shape nth_error] in H.
    + destruct (length hs =? length r); [discriminate|].
      inversion H. now right.
    + inversion H. now left.
Qed.

(** X3. The exceptions of [_read_block].  On a stream that is already
    exhausted [_read_block] raises [UnboundLocalError]; on any other stream
    it raises nothing but [ValueError] (rows of unequal lengths) and its
    bare assertion: the two subscripts [split()[0]] and [shape[1]] never
    fail. *)
Theorem _read_block_errors (blockname : str) :
  _read_block [] blockname = Raise (UnboundLocalError (lit "line")) /\
  forall f e,
    _read_block f blockname = Raise e ->
    (e = UnboundLocalError (lit "line") /\ f = [])
    \/ (f <> [] /\ (e = ValueError \/ e = AssertionError None)).
Proof.
  split.
  - reflexivity.
  - intros f e H. now apply (read_block_raises f blockname).
Qed.

End DecodeMore.

(** ** More on loading *)

Section LoadMore.

Lemma pd_DataFrame_ok (hs : list str) (a : ndarray) (n : nat) :
  shape a = [n; length hs] -> pd_DataFrame a hs = Ok (frame_of hs a).
Proof.
  intros S. unfold pd_DataFrame. rewrite S. now rewrite Nat.eqb_refl.
Qed.

Lemma _load_relion_steps (w : world) (path : str) (f : list str) :
  open_read w path = Ok f ->
  _load_relion w path
  = match _read_block f (lit "data_") with
    | inl e => Raise e
    | inr (hs, a, _) => Ok (alloc w (frame_of hs a))
    end.
Proof.
  intros O. unfold _load_relion. rewrite O. cbn [bind].
  destruct (_read_block f (lit "data_")) as [e|[[hs a] rest]] eqn:R;
    cbn [bind]; [reflexivity|].
  destruct (read_block_ok _ _ _ _ _ R) as (body & _ & _ & S & _).
  now rewrite (pd_DataFrame_ok _ _ _ S).
Qed.

Lemma _load_relion31_steps (w : world) (path : str) (f : list str) :
  open_read w path = Ok f ->
  _load_relion31 w path
  = match _read_block f (lit "data_optics") with
    | inl e => Raise e
    | inr (hs_o, a_o, rest) =>
        match _read_block rest (lit "data_particles") with
        | inl e => Raise e
        | inr (hs_p, a_p, _) =>
            Ok ({| heap := (heap w ++ [frame_of hs_o a_o])
                           ++ [frame_of hs_p a_p];
                   files := files w |},
                length (heap w ++ [frame_of hs_o a_o]),
                length (heap w))
        end
    end.
Proof.
  intros O. unfold _load_relion31. rewrite O. cbn [bind].
  destruct (_read_block f (lit "data_optics")) as [e|[[hs_o a_o] rest]] eqn:R1;
    cbn [bind]; [reflexivity|].
  destruct (_read_block rest (lit "data_particles")) as [e|[[hs_p a_p] rest']]
    eqn:R2; cbn [bind]; [reflexivity|].
  destruct (read_block_ok _ _ _ _ _ R1) as (b1 & _ & _ & S1 & _).
  destruct (read_block_ok _ _ _ _ _ R2) as (b2 & _ & _ & S2 & _).
  rewrite (pd_DataFrame_ok _ _ _ S1). cbn [bind alloc].
  now rewrite (pd_DataFrame_ok _ _ _ S2).
Qed.

Lemma first_marker_nonempty (f : list str) (b : bool) :
  first_marker f = Some b -> f <> [].
Proof. now destruct f. Qed.

(** The course of [load] on a file that exists. *)
Lemma load_steps (w : world) (path text : str) :
  lookup (files w) path = Some text ->
  load w path
  = match first_marker (readlines text) with
    | None => Raise (invalid_starfile path)
    | Some true =>
        '(w', df_particles, df_optics) <- _load_relion31 w path ;;
        Ok (w', __init__ df_particles (Some df_optics) (Some path))
    | Some false =>
        '(w', df_particles) <- _load_relion w path ;;
        Ok (w', __init__ df_particles None (Some path))
    end.
Proof.
  intros L. unfold load, open_read. rewrite L. cbn [bind].
  rewrite check_version_first_marker. cbn [bind].
  now destruct (first_marker (readlines text)) as [[|]|].
Qed.


(** The result of a successful [load]: one or two new frames, built from
    what [_read_block] returned. *)
Lemma load_ok (w w' : world) (path : str) (d : RelionMetaData) :
  load w path = Ok (w', d) ->
  files w' = files w /\ starfile d = Some path /\
  ((exists f hs a rest,
      _read_block f (lit "data_") = Ok (hs, a, rest) /\
      heap w' = heap w ++ [frame_of hs a] /\
      df_particles d = length (heap w) /\ df_optics d = None)
   \/
   (exists f hs_o a_o rest hs_p a_p rest',
      _read_block f (lit "data_optics") = Ok (hs_o, a_o, rest) /\
      _read_block rest (lit "data_particles") = Ok (hs_p, a_p, rest') /\
      heap w' = heap w ++ [frame_of hs_o a_o; frame_of hs_p a_p] /\
      df_particles d = S (length (heap w)) /\
      df_optics d = Some (length (heap w)))).
Proof.
  destruct (lookup (files w) path) as [text|] eqn:L.
  2:{ unfold load, open_read. rewrite L. discriminate. }
  rewrite (load_steps w path text L).
  assert (O : open_read w path = Ok (readlines text)).
  { unfold open_read. now rewrite L. }
  destruct (first_marker (readlines text)) as [[|]|]; [| |discriminate].
  - rewrite (_load_relion31_steps _ _ _ O).
    destruct (_read_block (readlines text) (lit "data_optics"))
      as [e1|[[hs_o a_o] rest]] eqn:R1; cbn [bind]; [discriminate|].
    destruct (_read_block rest (lit "data_particles"))
      as [e2|[[hs_p a_p] rest']] eqn:R2; cbn [bind]; [discriminate|].
    intros H. inversion H; subst; clear H. cbn.
    split; [reflexivity|]. split; [reflexivity|]. right.
    exists (readlines text), hs_o, a_o, rest, hs_p, a_p, rest'.
    rewrite <- app_assoc, length_app. cbn.
    repeat split; try assumption; f_equal; lia.
  - rewrite (_load_relion_steps _ _ _ O).
    destruct (_read_block (readlines text) (lit "data_"))
      as [e1|[[hs a] rest]] eqn:R1; cbn [bind alloc]; [discriminate|].
    intros H. inversion H; subst; clear H. cbn.
    split; [reflexivity|]. split; [reflexivity|]. left.
    exists (readlines text), hs, a, rest. repeat split. assumption.
Qed.

Lemma nth_error_snoc1 (h : list DataFrame) (x : DataFrame) :
  nth_error (h ++ [x]) (length h) = Some x.
Proof. rewrite nth_error_app2 by lia. now rewrite Nat.sub_diag. Qed.

Lemma nth_error_snoc2 (h : list DataFrame) (x y : DataFrame) :
  nth_error (h ++ [x; y]) (length h) = Some x /\
  nth_error (h ++ [x; y]) (S (length h)) = Some y.
Proof.
  split; rewrite nth_error_app2 by lia.
  - now rewrite Nat.sub_diag.
  - now replace (S (length h) - length h) with 1 by lia.
Qed.

Lemma deref_extend (w w' : world) (more : list DataFrame) (r : ref)
    (df : DataFrame) :
  heap w' = heap w ++ more -> deref w r = Ok df -> deref w' r = Ok df.
Proof.
  intros E. unfold deref. rewrite E.
  destruct (nth_error (heap w) r) eqn:N; [|discriminate].
  rewrite nth_error_app1 by (apply nth_error_Some; congruence).
  now rewrite N.
Qed.

(** X5. What [load] leaves alone.  A successful [load] changes no file and
    no existing frame object; the document it returns records the path it
    was loaded from, and its tables are new objects, distinct from each
    other. *)
Theorem load_frame (w w' : world) (path : str) (d : RelionMetaData) :
  load w path = Ok (w', d) ->
  files w' = files w /\
  starfile d = Some path /\
  (forall r df, deref w r = Ok df -> deref w' r = Ok df) /\
  (length (heap w) <= df_particles d /\
   exists df, deref w' (df_particles d) = Ok df) /\
  (forall r, df_optics d = Some r ->
     length (heap w) <= r /\ r <> df_particles d /\
     exists df, deref w' r = Ok df).
Proof.
  intros H. destruct (load_ok _ _ _ _ H) as (F & S & [L|M]).
  - destruct L as (f & hs & a & rest & _ & Hh & P & O).
    split; [exact F|]. split; [exact S|]. split; [|split].
    + intros r df. apply (deref_extend w w' _ r df Hh).
    + split; [lia|]. exists (frame_of hs a). unfold deref. rewrite Hh, P.
      now rewrite nth_error_snoc1.
    + intros r Hr. rewrite O in Hr. discriminate.
  - destruct M as (f & hs_o & a_o & rest & hs_p & a_p & rest' & _ & _ & Hh & P & O).
    destruct (nth_error_snoc2 (heap w) (frame_of hs_o a_o) (frame_of hs_p a_p))
      as [N1 N2].
    split; [exact F|]. split; [exact S|]. split; [|split].
    + intros r df. apply (deref_extend w w' _ r df Hh).
    + split; [lia|]. exists (frame_of hs_p a_p). unfold deref.
      now rewrite Hh, P, N2.
    + intros r Hr. rewrite O in Hr. inversion Hr; subst r.
      split; [lia|]. split; [lia|].
      exists (frame_of hs_o a_o). unfold deref. now rewrite Hh, N1.
Qed.

Lemma split_from_no_space (s cur : str) :
  no_space cur = true ->
  Forall (fun w => no_space w = true) (split_from cur s).
Proof.
  revert cur. induction s as [|c s IH]; intros cur N; cbn [split_from].
  - destruct cur; constructor; [exact N | constructor].
  - destruct (isspace c) eqn:C.
    + destruct cur; [now apply IH|]. constructor; [exact N | now apply IH].
    + apply IH. unfold no_space in *. rewrite forallb_app, N. cbn.
      now rewrite C.
Qed.

Lemma split_from_prefix (s cur : str) :
  cur <> [] -> exists t ws, split_from cur s = (cur ++ t) :: ws.
Proof.
  revert cur. induction s as [|c s IH]; intros cur N; cbn [split_from].
  - exists [], []. rewrite app_nil_r. now destruct cur.
  - destruct (isspace c).
    + exists [], (split_from [] s). rewrite app_nil_r. now destruct cur.
    + destruct (IH (cur ++ [c])) as (t & ws & E).
      { now destruct cur. }
      exists (c :: t), ws. rewrite E. now rewrite <- app_assoc.
Qed.

(** The first word of a line that begins with an underscore is a label. *)
Lemma header_word_is_label (l name : str) (ws : list str) :
  startswith l (lit "_") = true -> split (strip l) = name :: ws ->
  is_label name = true.
Proof.
  intros Hl E. rewrite split_strip in E.
  pose proof (split_from_no_space l [] eq_refl) as NS.
  unfold split in E. rewrite E in NS. inversion NS as [|? ? Nn _]; subst.
  unfold is_label. rewrite Nn, andb_true_r.
  destruct l as [|c l]; [discriminate|]. cbn in Hl.
  destruct (chr_eqb c "_") eqn:C; [|discriminate].
  apply chr_eqb_eq in C. subst c. cbn in E.
  destruct (split_from_prefix l ["_"%char]) as (t & ws' & E'); [discriminate|].
  rewrite E' in E. inversion E. reflexivity.
Qed.

Lemma read_headers_labels_inv (f acc : list str) (line : option str)
    (hs : list str) (line' : option str) (f' : list str) :
  read_headers acc line f = Ok (hs, line', f') ->
  Forall (fun c => is_label c = true) acc ->
  Forall (fun c => is_label c = true) hs.
Proof.
  revert acc line. induction f as [|l f IH]; intros acc line; cbn [read_headers].
  - intros H. now inversion H; subst.
  - destruct (startswith l (lit "_")) eqn:Hl.
    + destruct (split (strip l)) as [|name ws] eqn:E; [discriminate|].
      intros H A. apply (IH _ _ H). apply Forall_app. split; [exact A|].
      constructor; [|constructor]. apply (header_word_is_label l name ws Hl E).
    + intros H. now inversion H; subst.
Qed.

Lemma fields_no_space (l : str) :
  Forall (fun x => no_space x = true) (split (strip l)).
Proof. unfold split. now apply split_from_no_space. Qed.

Lemma read_body_no_space (f : list str) (acc : list (list str)) :
  Forall (fun row => Forall (fun x => no_space x = true) row) acc ->
  Forall (fun row => Forall (fun x => no_space x = true) row)
    (fst (read_body acc f)).
Proof.
  revert acc. induction f as [|l f IH]; intros acc A; cbn [read_body].
  - exact A.
  - destruct (str_eqb (strip l) (lit "")); [exact A|].
    apply IH. apply Forall_app. split; [exact A|].
    constructor; [apply fields_no_space | constructor].
Qed.

Lemma collect_inv (f : list str) (blockname : str) (hs : list str)
    (body : list (list str)) (rest : list str) :
  collect f blockname = Ok (hs, body, rest) ->
  Forall (fun c => is_label c = true) hs /\
  Forall (fun row => Forall (fun x => no_space x = true) row) body.
Proof.
  unfold collect. destruct (seek blockname None f) as [l1 f1].
  destruct (seek (lit "loop_") l1 f1) as [l2 f2].
  destruct (read_headers [] l2 f2) as [e|[[hs' l3] f3]] eqn:R; cbn [bind];
    [discriminate|].
  destruct l3 as [l3|]; cbn [bind]; [|discriminate].
  pose proof (read_body_no_space f3 [split (strip l3)]) as B.
  destruct (read_body _ f3) as [b f4]. cbn [fst] in B.
  intros H. inversion H; subst; clear H. split.
  - apply (read_headers_labels_inv _ _ _ _ _ _ R). constructor.
  - apply B. constructor; [apply fields_no_space | constructor].
Qed.

Lemma no_space_rstrip_nul (x : str) :
  no_space x = true -> no_space (rstrip_nul x) = true.
Proof.
  unfold no_space. induction x as [|c x IH]; cbn [rstrip_nul forallb];
    [reflexivity|].
  rewrite andb_true_iff. intros [C X]. specialize (IH X).
  destruct (rstrip_nul x) as [|a r].
  - destruct (chr_eqb c NUL); cbn; [reflexivity | now rewrite C].
  - cbn [forallb] in IH |- *. now rewrite C, IH.
Qed.

Lemma label_from_index (vals : list (list str)) (k : nat) :
  map fst (label_from (Z.of_nat k) vals) = map Z.of_nat (seq k (length vals)).
Proof.
  revert k. induction vals as [|v vals IH]; intros k; cbn; [reflexivity|].
  f_equal. replace (Z.of_nat k + 1)%Z with (Z.of_nat (S k)) by lia.
  apply IH.
Qed.

Lemma label_from_length (vals : list (list str)) (k : Z) :
  length (label_from k vals) = length vals.
Proof.
  revert k. induction vals as [|v vals IH]; intros k; cbn; [reflexivity|].
  now rewrite IH.
Qed.

(** Every frame built from a result of [_read_block] is a loaded table. *)
Lemma frame_of_loaded (f : list str) (blockname : str) (hs : list str)
    (a : ndarray) (rest : list str) :
  _read_block f blockname = Ok (hs, a, rest) -> loaded_table (frame_of hs a).
Proof.
  intros R. destruct (read_block_ok _ _ _ _ _ R) as (body & C & N & _ & U & Cl).
  destruct (collect_inv _ _ _ _ _ C) as [Lab NS].
  unfold loaded_table, frame_of, index, values. cbn [columns rows].
  rewrite label_from_values, label_from_length. rewrite Cl.
  split; [|split; [|split; [|split]]].
  - destruct body; [congruence|]. discriminate.
  - apply (label_from_index _ 0).
  - apply Forall_map. revert U. apply Forall_impl. intros row.
    now rewrite length_map.
  - exact Lab.
  - apply Forall_map. revert NS. apply Forall_impl. intros row Hrow.
    apply Forall_map. revert Hrow. apply Forall_impl.
    apply no_space_rstrip_nul.
Qed.


(** X6. The tables of a loaded document.  Every table of a document that
    [load] returns is a frame of the store that has at least one row, row
    labels [0 .. n-1], one field per column in every row, column labels
    that begin with an underscore and contain no white space, and fields
    that contain no white space. *)
Theorem load_tables (w w' : world) (path : str) (d : RelionMetaData) :
  load w path = Ok (w', d) ->
  (exists particles,
     deref w' (df_particles d) = Ok particles /\ loaded_table particles) /\
  (forall r, df_optics d = Some r ->
     exists optics, deref w' r = Ok optics /\ loaded_table optics).
Proof.
  intros H. destruct (load_ok _ _ _ _ H) as (_ & _ & [L|M]).
  - destruct L as (f & hs & a & rest & R & Hh & P & O). split.
    + exists (frame_of hs a). split; [|apply (frame_of_loaded _ _ _ _ _ R)].
      unfold deref. now rewrite Hh, P, nth_error_snoc1.
    + intros r Hr. rewrite O in Hr. discriminate.
  - destruct M as (f & hs_o & a_o & rest & hs_p & a_p & rest' & R1 & R2 & Hh & P & O).
    destruct (nth_error_snoc2 (heap w) (frame_of hs_o a_o) (frame_of hs_p a_p))
      as [N1 N2].
    split.
    + exists (frame_of hs_p a_p). split; [|apply (frame_of_loaded _ _ _ _ _ R2)].
      unfold deref. now rewrite Hh, P, N2.
    + intros r Hr. rewrite O in Hr. inversion Hr; subst r.
      exists (frame_of hs_o a_o). split; [|apply (frame_of_loaded _ _ _ _ _ R1)].
      unfold deref. now rewrite Hh, N1.
Qed.





(** X8. A marker that is not at the start of its line.  The version check
    strips each line before it looks at the first word, the block search
    does not.  When the version check finds the legacy marker but no line
    begins with [data_] (the marker lines are indented), [load] looks for
    the block up to the end of the file and takes the last line as the only
    row: it returns a table without columns and with one empty row when
    that line is blank, and fails the bare assertion otherwise. *)
Theorem load_indented_marker (w : world) (path text : str) :
  lookup (files w) path = Some text ->
  first_marker (readlines text) = Some false ->
  Forall (fun l => startswith l (lit "data_") = false) (readlines text) ->
  exists last,
    last_read None (readlines text) = Some last /\
    load w path
    = match fields_of last with
      | [] =>
          Ok ({| heap := heap w ++ [{| columns := []; rows := [(0%Z, [])] |}];
                 files := files w |},
              {| df_particles := length (heap w); df_optics := None;
                 starfile := Some path |})
      | _ :: _ => Raise (AssertionError None)
      end.
Proof.
  intros L M N.
  assert (O : open_read w path = Ok (readlines text)).
  { unfold open_read. now rewrite L. }
  rewrite (load_steps w path text L), M, (_load_relion_steps _ _ _ O).
  assert (R : _read_block (readlines text) (lit "data_")
              = marker_missing (last_read None (readlines text))).
  { unfold _read_block, collect. rewrite (seek_missing _ _ _ N).
    apply read_block_end_of_stream. }
  rewrite R. destruct (readlines text) as [|l f] eqn:E; [discriminate|].
  cbn [last_read]. clear.
  assert (X : exists last, last_read (Some l) f = Some last).
  { generalize l. induction f as [|x f IH]; intros y; cbn [last_read].
    - now exists y.
    - apply IH. }
  destruct X as (last & X). exists last. split; [exact X|]. rewrite X.
  unfold marker_missing, fields_of. now destruct (split (strip last)).
Qed.

End LoadMore.

(** ** More on writing *)

Section WriteMore.

Lemma filter_count (i : Z) (rs : list (Z * list str)) :
  length (filter (fun r => (fst r =? i)%Z) rs)
  = count_occ Z.eq_dec (map fst rs) i.
Proof.
  induction rs as [|[j c] rs IH]; [reflexivity|]. cbn [filter map fst count_occ].
  destruct (Z.eqb_spec j i) as [->|N].
  - destruct (Z.eq_dec i i); [|congruence]. cbn. now rewrite IH.
  - destruct (Z.eq_dec j i); [congruence|]. exact IH.
Qed.

(** What [str.join] iterates over for the label of a row. *)
Lemma df_loc_iterate (df : DataFrame) (pre suf : list (Z * list str)) (i : Z)
    (c : list str) :
  rows df = pre ++ (i, c) :: suf ->
  exists x, df_loc df i = Ok x /\ iterate x = written_cells df (i, c).
Proof.
  intros R. unfold df_loc, written_cells, index. cbn [fst snd].
  rewrite <- filter_count. rewrite R, filter_app. cbn [filter fst].
  rewrite Z.eqb_refl.
  destruct (filter (fun r => (fst r =? i)%Z) pre) as [|p1 ps].
  - cbn [app]. destruct (filter (fun r => (fst r =? i)%Z) suf) as [|s1 ss].
    + exists (Series c). now split.
    + eexists. split; [reflexivity|]. reflexivity.
  - cbn [app]. destruct ps as [|p2 ps]; cbn [app].
    + eexists. split; [reflexivity|]. reflexivity.
    + eexists. split; [reflexivity|]. cbn [length iterate columns].
      rewrite length_app. cbn [length].
      now replace (S (S (length ps + S _)) =? 1) with false.
Qed.

Lemma write_rows_text (df : DataFrame) (pre suf : list (Z * list str))
    (f : str) :
  rows df = pre ++ suf ->
  write_rows f df (map fst suf)
  = Ok (f ++ unlines (map (fun r => join (lit " ") (written_cells df r)) suf)).
Proof.
  revert pre f. induction suf as [|[i c] suf IH]; intros pre f R.
  - cbn. now rewrite app_nil_r.
  - cbn [map fst write_rows].
    destruct (df_loc_iterate df pre suf i c R) as (x & E1 & E2).
    rewrite E1. cbn [bind]. rewrite E2.
    rewrite (IH (pre ++ [(i, c)])) by now rewrite <- app_assoc.
    change (unlines (?a :: ?l)) with ((a ++ nl) ++ unlines l).
    now rewrite <- !app_assoc.
Qed.

Lemma _write_block_emits (f blockname : str) (df : DataFrame) :
  _write_block f blockname df = Ok (f ++ emitted_block blockname df).
Proof.
  unfold _write_block, index.
  rewrite (write_rows_text df [] (rows df)) by reflexivity. cbn [bind].
  unfold emitted_block. now rewrite <- !app_assoc.
Qed.

(** X9. The text of a block, for any frame.  [_write_block] never fails.
    It appends the block name, an empty line, the [loop_] line, the column
    labels joined by newlines, and one line per row: the fields of the row
    joined by spaces when the label of the row occurs once in the index,
    and the column labels joined by spaces when that label is repeated. *)
Theorem _write_block_text (f blockname : str) (df : DataFrame) :
  _write_block f blockname df
  = Ok (f ++ strip blockname ++ nl ++ nl ++ lit "loop_" ++ nl
        ++ join nl (columns df) ++ nl
        ++ unlines
             (map (fun r =>
                     join (lit " ")
                       (if count_occ Z.eq_dec (index df) (fst r) =? 1
                        then snd r else columns df))
                (rows df))
        ++ nl).
Proof.
  rewrite _write_block_emits. unfold emitted_block.
  repeat f_equal.
Qed.









End WriteMore.

(** ** More on row projection *)

Section ProjectionMore.

Lemma position_from_end (n : nat) (i : Z) :
  (- Z.of_nat n <= i < Z.of_nat n)%Z ->
  position n i = Some (Z.to_nat (i mod Z.of_nat n)) /\
  Z.to_nat (i mod Z.of_nat n) < n.
Proof.
  intros H. unfold position.
  destruct (Z.leb_spec 0 i) as [P|P].
  - replace ((i <? Z.of_nat n)%Z) with true by (symmetry; apply Z.ltb_lt; lia).
    cbn [andb]. rewrite Z.mod_small by lia. split; [reflexivity | lia].
  - cbn [andb].
    replace ((- Z.of_nat n <=? i)%Z) with true by (symmetry; apply Z.leb_le; lia).
    replace ((i <? 0)%Z) with true by (symmetry; apply Z.ltb_lt; lia).
    cbn [andb].
    assert (M : (i mod Z.of_nat n = Z.of_nat n + i)%Z).
    { rewrite <- (Z.mod_small (Z.of_nat n + i) (Z.of_nat n)) by lia.
      replace (Z.of_nat n + i)%Z with (i + 1 * Z.of_nat n)%Z by lia.
      now rewrite Z.mod_add by lia. }
    rewrite M. split; [reflexivity | lia].
Qed.

Lemma take_rows_from_end (rs : list (Z * list str)) (idxs : list Z) :
  Forall (fun i => - Z.of_nat (length rs) <= i < Z.of_nat (length rs))%Z idxs ->
  take_rows rs idxs
  = Ok (map (fun i => nth (Z.to_nat (i mod Z.of_nat (length rs))) rs (0%Z, []))
          idxs).
Proof.
  induction 1 as [|i idxs Hi _ IH]; cbn [take_rows map]; [reflexivity|].
  destruct (position_from_end _ _ Hi) as [-> B].
  destruct (nth_error rs _) as [r|] eqn:E.
  - rewrite IH. cbn [bind]. now rewrite (nth_error_nth _ _ _ E).
  - apply nth_error_None in E. lia.
Qed.

(** X13. Positions counted from the end.  On a table of [n] rows [iloc]
    accepts every position from [-n] to [n-1]: a negative position [i]
    selects the row at [n+i], so that the row selected by [i] is the row at
    [i mod n]. *)
Theorem iloc_from_end (w : world) (self : RelionMetaData) (df : DataFrame)
    (idxs : list Z) :
  deref w (df_particles self) = Ok df ->
  Forall (fun i => - Z.of_nat (length (rows df)) <= i
                   < Z.of_nat (length (rows df)))%Z idxs ->
  exists w' d' df',
    iloc w self idxs = Ok (w', d') /\
    deref w' (df_particles d') = Ok df' /\
    columns df' = columns df /\
    rows df'
    = map (fun i => nth (Z.to_nat (i mod Z.of_nat (length (rows df))))
                      (rows df) (0%Z, [])) idxs.
Proof.
  intros D H. unfold iloc, df_iloc. rewrite D. cbn [bind].
  rewrite (take_rows_from_end _ _ H). cbn [bind alloc].
  eexists _, _,
    {| columns := columns df;
       rows := map (fun i => nth (Z.to_nat (i mod Z.of_nat (length (rows df))))
                               (rows df) (0%Z, [])) idxs |}.
  split; [reflexivity|]. split; [|split; reflexivity].
  unfold deref. cbn [heap df_particles __init__].
  now rewrite nth_error_snoc1.
Qed.

Lemma iloc_valid (w : world) (self : RelionMetaData) (df : DataFrame)
    (idxs : list Z) :
  deref w (df_particles self) = Ok df ->
  Forall (fun i => 0 <= i < Z.of_nat (length (rows df)))%Z idxs ->
  iloc w self idxs
  = Ok ({| heap := heap w
                   ++ [{| columns := columns df;
                          rows := map (fun i => nth (Z.to_nat i) (rows df)
                                                  (0%Z, [])) idxs |}];
           files := files w |},
        __init__ (length (heap w)) (df_optics self) None).
Proof.
  intros D H. unfold iloc, df_iloc. rewrite D. cbn [bind].
  now rewrite (take_rows_valid _ _ H).
Qed.

(** X14. Projections compose.  Projecting a document with positions [i1]
    and the result with positions [i2] gives a primary table equal to that
    of the projection with the positions [i1[j]] for [j] in [i2]; both
    documents hold the optics reference of the source. *)
Theorem iloc_compose (w : world) (self : RelionMetaData) (df : DataFrame)
    (i1 i2 : list Z) :
  deref w (df_particles self) = Ok df ->
  Forall (fun i => 0 <= i < Z.of_nat (length (rows df)))%Z i1 ->
  Forall (fun j => 0 <= j < Z.of_nat (length i1))%Z i2 ->
  exists w1 d1 w2 d2 w3 d3 df',
    iloc w self i1 = Ok (w1, d1) /\
    iloc w1 d1 i2 = Ok (w2, d2) /\
    iloc w self (map (fun j => nth (Z.to_nat j) i1 0%Z) i2) = Ok (w3, d3) /\
    deref w2 (df_particles d2) = Ok df' /\
    deref w3 (df_particles d3) = Ok df' /\
    df_optics d2 = df_optics self /\ df_optics d3 = df_optics self.
Proof.
  intros D H1 H2.
  set (pick := fun i => nth (Z.to_nat i) (rows df) (0%Z, @nil str)).
  set (df1 := {| columns := columns df; rows := map pick i1 |}).
  pose proof (iloc_valid w self df i1 D H1) as E1. fold pick df1 in E1.
  set (w1 := {| heap := heap w ++ [df1]; files := files w |}) in *.
  set (d1 := __init__ (length (heap w)) (df_optics self) None) in *.
  assert (D1 : deref w1 (df_particles d1) = Ok df1).
  { unfold deref. cbn [heap w1 df_particles d1 __init__].
    now rewrite nth_error_snoc1. }
  assert (H2' : Forall (fun j => 0 <= j < Z.of_nat (length (rows df1)))%Z i2).
  { cbn [rows df1]. now rewrite length_map. }
  pose proof (iloc_valid w1 d1 df1 i2 D1 H2') as E2.
  set (i3 := map (fun j => nth (Z.to_nat j) i1 0%Z) i2).
  assert (H3 : Forall (fun i => 0 <= i < Z.of_nat (length (rows df)))%Z i3).
  { apply Forall_map. revert H2. apply Forall_impl. intros j Hj.
    rewrite Forall_forall in H1. apply H1, nth_In. lia. }
  pose proof (iloc_valid w self df i3 D H3) as E3.
  assert (R : map (fun i => nth (Z.to_nat i) (rows df1) (0%Z, [])) i2
              = map pick i3).
  { unfold i3. rewrite map_map. apply map_ext_in. intros j Ij.
    rewrite Forall_forall in H2. specialize (H2 j Ij). cbn [rows df1].
    rewrite (nth_indep _ _ (pick 0%Z)) by (rewrite length_map; lia).
    apply map_nth. }
  rewrite R in E2. fold pick in E3.
  eexists _, _, _, _, _, _, {| columns := columns df; rows := map pick i3 |}.
  split; [exact E1|]. split; [exact E2|]. split; [exact E3|].
  unfold deref. cbn [heap df_particles df_optics __init__ d1].
  rewrite !nth_error_snoc1. repeat split.
Qed.

Lemma count_occ_map_inj (g : Z -> Z) (l : list Z) (i : Z) :
  (forall j, In j l -> g j = g i -> j = i) ->
  count_occ Z.eq_dec (map g l) (g i) = count_occ Z.eq_dec l i.
Proof.
  induction l as [|j l IH]; intros Inj; [reflexivity|]. cbn [map count_occ].
  destruct (Z.eq_dec (g j) (g i)) as [E|N], (Z.eq_dec j i) as [E'|N'].
  - rewrite IH; [reflexivity|]. intros k Ik. apply Inj. now right.
  - exfalso. apply N'. apply Inj; [now left | exact E].
  - subst j. congruence.
  - apply IH. intros k Ik. apply Inj. now right.
Qed.

(** X15. Writing a projection with repeated positions.  Let a table have
    pairwise distinct row labels.  After [iloc] with valid positions, the
    block [_write_block] writes for the new table has one line per
    position asked: the fields of the row at that position when the
    position was asked once, and the column labels (the header line again)
    when it was asked several times, because the new rows then share a
    label and [df.loc] returns all of them. *)
Theorem iloc_repeats_written (w : world) (self : RelionMetaData)
    (df : DataFrame) (idxs : list Z) :
  deref w (df_particles self) = Ok df ->
  NoDup (index df) ->
  Forall (fun i => 0 <= i < Z.of_nat (length (rows df)))%Z idxs ->
  exists w' d' df',
    iloc w self idxs = Ok (w', d') /\
    deref w' (df_particles d') = Ok df' /\
    forall f blockname,
      _write_block f blockname df'
      = Ok (f ++ strip blockname ++ nl ++ nl ++ lit "loop_" ++ nl
            ++ join nl (columns df) ++ nl
            ++ unlines
                 (map (fun i =>
                         join (lit " ")
                           (if count_occ Z.eq_dec idxs i =? 1
                            then nth (Z.to_nat i) (values df) []
                            else columns df))
                    idxs)
            ++ nl).
Proof.
  intros D N H.
  set (pick := fun i => nth (Z.to_nat i) (rows df) (0%Z, @nil str)).
  pose proof (iloc_valid w self df idxs D H) as E. fold pick in E.
  eexists _, _, {| columns := columns df; rows := map pick idxs |}.
  split; [exact E|]. split.
  { unfold deref. cbn [heap df_particles __init__].
    now rewrite nth_error_snoc1. }
  intros f blockname. rewrite _write_block_emits. unfold emitted_block.
  cbn [columns rows]. rewrite map_map.
  match goal with
  | |- context [unlines (map ?a idxs)] =>
      match goal with
      | |- _ = inr (_ ++ _ ++ _ ++ _ ++ _ ++ _ ++ _ ++ _ ++ unlines (map ?b idxs) ++ _) =>
          enough (M : map a idxs = map b idxs) by now rewrite M
      end
  end.
  apply map_ext_in. intros i Ii. f_equal.
  unfold written_cells, index. cbn [rows columns fst snd]. rewrite map_map.
  rewrite Forall_forall in H.
  assert (Inj : forall j, In j idxs -> fst (pick j) = fst (pick i) -> j = i).
  { intros j Ij Eq. pose proof (H i Ii) as Hi. pose proof (H j Ij) as Hj.
    unfold pick in Eq. rewrite <- !(map_nth fst) in Eq.
    unfold index in N. rewrite NoDup_nth in N.
    apply Z2Nat.inj; try lia. apply (N _ _); rewrite ?length_map; try lia.
    exact Eq. }
  rewrite (count_occ_map_inj (fun j => fst (pick j)) idxs i Inj).
  destruct (count_occ Z.eq_dec idxs i =? 1); [|reflexivity].
  unfold pick, values. now rewrite <- (map_nth snd).
Qed.

End ProjectionMore.

(** ** Line endings *)

Section LineEndings.

Lemma universal_newlines_crlf (l rest : str) :
  forallb plain l = true ->
  universal_newlines (l ++ CR :: LF :: rest)
  = l ++ LF :: universal_newlines rest.
Proof.
  induction l as [|c l IH]; intros P.
  - reflexivity.
  - cbn [forallb] in P. apply andb_true_iff in P. destruct P as [Pc Pl].
    unfold plain in Pc. apply andb_true_iff in Pc. destruct Pc as [_ Pc].
    apply negb_true_iff in Pc. cbn [app universal_newlines]. rewrite Pc.
    now rewrite IH.
Qed.

Lemma universal_newlines_crlf_text (ls : list str) :
  Forall (fun l => forallb plain l = true) ls ->
  universal_newlines (crlf_text ls) = unlines ls.
Proof.
  induction 1 as [|l ls P _ IH]; [reflexivity|].
  change (crlf_text (l :: ls)) with ((l ++ [CR; LF]) ++ crlf_text ls).
  change (unlines (l :: ls)) with ((l ++ nl) ++ unlines ls).
  rewrite <- !app_assoc. cbn [app].
  rewrite universal_newlines_crlf by assumption. now rewrite IH.
Qed.

(** X16. Line endings.  A file whose lines end with a carriage return and a
    line feed is read as the same lines, each ending with a single line
    feed, as the file whose lines end with a line feed: every loop of
    [load] and [_read_block] sees the same stream for both. *)
Theorem open_read_crlf (w1 w2 : world) (path : str) (ls : list str) :
  Forall (fun l => forallb plain l = true) ls ->
  lookup (files w1) path = Some (crlf_text ls) ->
  lookup (files w2) path = Some (unlines ls) ->
  open_read w1 path = Ok (map (fun l => l ++ nl) ls) /\
  open_read w2 path = open_read w1 path.
Proof.
  intros P L1 L2. unfold open_read. rewrite L1, L2.
  rewrite (readlines_unlines _ P). unfold readlines.
  rewrite (universal_newlines_crlf_text _ P).
  now rewrite (lines_from_unlines _ P).
Qed.

End LineEndings.

(** ** The further properties on example data *)

Section OnMoreExamples.

Import Examples MoreExamples.

(** X1 on [spaced_block]. *)
Lemma read_block_decodes_witness :
  _read_block spaced_block (lit "data_particles")
  = Ok ([lit "_rlnImageName"; lit "_rlnDefocusU"],
        {| shape := [2; 2];
           cells := [[lit "001.mrc"; lit "10000"];
                     [lit "002.mrc"; lit "10500"]] |},
        [lit "next" ++ nl]).
Proof.
  apply (read_block_decodes
           [lit "# particles" ++ nl] (lit "data_particles" ++ nl) [nl]
           (lit "loop_ " ++ nl)
           [lit "_rlnImageName #1" ++ nl; lit "_rlnDefocusU #2" ++ nl]
           (lit "001.mrc   10000" ++ nl) [lit "  002.mrc 10500 " ++ nl]
           [nl; lit "next" ++ nl] (lit "data_particles")).
  - repeat constructor.
  - reflexivity.
  - repeat constructor.
  - reflexivity.
  - repeat constructor.
  - reflexivity.
  - constructor; [vm_compute; discriminate | constructor].
  - right. exists nl, [lit "next" ++ nl]. split; reflexivity.
  - repeat constructor.
Defined.

(** X2 on [headers_only]: the line [_b #2] comes back as a row. *)
Lemma read_block_headers_at_end_witness :
  _read_block headers_only (lit "data_")
  = Ok ([lit "_a"; lit "_b"],
        {| shape := [1; 2]; cells := [[lit "_b"; lit "#2"]] |}, []).
Proof.
  apply (read_block_headers_at_end [] (lit "data_" ++ nl) [nl]
           (lit "loop_" ++ nl) [lit "_a #1" ++ nl] (lit "_b #2" ++ nl)
           (lit "data_")).
  - constructor.
  - reflexivity.
  - repeat constructor.
  - reflexivity.
  - repeat constructor.
Defined.

(** X3 on [short_rows]. *)
Lemma _read_block_errors_witness :
  (AssertionError None = UnboundLocalError (lit "line") /\ short_rows = [])
  \/ (short_rows <> [] /\
      (AssertionError None = ValueError
       \/ AssertionError None = AssertionError None)).
Proof.
  apply (proj2 (_read_block_errors (lit "data_")) short_rows).
  reflexivity.
Defined.


(** X5 on [modern.star]. *)
Lemma load_frame_witness :
  files (fst loaded_modern) = files star_world /\
  starfile (snd loaded_modern) = Some (lit "modern.star") /\
  (forall r df, deref star_world r = Ok df ->
                deref (fst loaded_modern) r = Ok df) /\
  (length (heap star_world) <= df_particles (snd loaded_modern) /\
   exists df, deref (fst loaded_modern) (df_particles (snd loaded_modern))
              = Ok df) /\
  (forall r, df_optics (snd loaded_modern) = Some r ->
     length (heap star_world) <= r /\
     r <> df_particles (snd loaded_modern) /\
     exists df, deref (fst loaded_modern) r = Ok df).
Proof.
  apply (load_frame star_world (fst loaded_modern) (lit "modern.star")
           (snd loaded_modern)).
  reflexivity.
Defined.

(** X6 on [modern.star]. *)
Lemma load_tables_witness :
  (exists particles,
     deref (fst loaded_modern) (df_particles (snd loaded_modern))
     = Ok particles /\ loaded_table particles) /\
  (forall r, df_optics (snd loaded_modern) = Some r ->
     exists optics,
       deref (fst loaded_modern) r = Ok optics /\ loaded_table optics).
Proof.
  apply (load_tables star_world (fst loaded_modern) (lit "modern.star")
           (snd loaded_modern)).
  reflexivity.
Defined.


(** X8 on [indented.star]: [load] returns a table without columns. *)
Lemma load_indented_marker_witness :
  exists last,
    last_read None (readlines (unlines [lit "  data_"; lit ""])) = Some last /\
    load indented_world (lit "indented.star")
    = match fields_of last with
      | [] =>
          Ok ({| heap := heap indented_world
                         ++ [{| columns := []; rows := [(0%Z, [])] |}];
                 files := files indented_world |},
              {| df_particles := length (heap indented_world);
                 df_optics := None;
                 starfile := Some (lit "indented.star") |})
      | _ :: _ => Raise (AssertionError None)
      end.
Proof.
  apply (load_indented_marker indented_world (lit "indented.star")
           (unlines [lit "  data_"; lit ""])).
  - reflexivity.
  - reflexivity.
  - repeat constructor.
Defined.




(** X13 on [doc]: positions [-1; 0; -3] select rows 2, 0 and 0. *)
Lemma iloc_from_end_witness :
  exists w' d' df',
    iloc doc_world doc [-1; 0; -3]%Z = Ok (w', d') /\
    deref w' (df_particles d') = Ok df' /\
    columns df' = columns three_rows /\
    rows df' = [(2%Z, [lit "003.mrc"; lit "11000"]);
                (0%Z, [lit "001.mrc"; lit "10000"]);
                (0%Z, [lit "001.mrc"; lit "10000"])].
Proof.
  apply (iloc_from_end doc_world doc three_rows [-1; 0; -3]%Z).
  - reflexivity.
  - repeat constructor; cbn; lia.
Defined.

(** X14 on [doc]: positions [2; 0; 2] and then [1; 1; 0]. *)
Lemma iloc_compose_witness :
  exists w1 d1 w2 d2 w3 d3 df',
    iloc doc_world doc [2; 0; 2]%Z = Ok (w1, d1) /\
    iloc w1 d1 [1; 1; 0]%Z = Ok (w2, d2) /\
    iloc doc_world doc [0; 0; 2]%Z = Ok (w3, d3) /\
    deref w2 (df_particles d2) = Ok df' /\
    deref w3 (df_particles d3) = Ok df' /\
    df_optics d2 = df_optics doc /\ df_optics d3 = df_optics doc.
Proof.
  apply (iloc_compose doc_world doc three_rows [2; 0; 2]%Z [1; 1; 0]%Z).
  - reflexivity.
  - repeat constructor; cbn; lia.
  - repeat constructor; cbn; lia.
Defined.

(** X15 on [doc]: with positions [2; 0; 2] the first and the third line are
    the header again. *)
Lemma iloc_repeats_written_witness :
  exists w' d' df',
    iloc doc_world doc [2; 0; 2]%Z = Ok (w', d') /\
    deref w' (df_particles d') = Ok df' /\
    forall f blockname,
      _write_block f blockname df'
      = Ok (f ++ strip blockname ++ nl ++ nl ++ lit "loop_" ++ nl
            ++ join nl (columns three_rows) ++ nl
            ++ unlines [lit "_rlnImageName _rlnDefocusU";
                        lit "001.mrc 10000";
                        lit "_rlnImageName _rlnDefocusU"]
            ++ nl).
Proof.
  apply (iloc_repeats_written doc_world doc three_rows [2; 0; 2]%Z).
  - reflexivity.
  - apply distinct_NoDup. reflexivity.
  - repeat constructor; cbn; lia.
Defined.

(** X16 on two files of two lines. *)
Lemma open_read_crlf_witness :
  open_read crlf_world (lit "a.star")
  = Ok [lit "data_" ++ nl; lit "loop_" ++ nl] /\
  open_read lf_world (lit "a.star") = open_read crlf_world (lit "a.star").
Proof.
  apply (open_read_crlf crlf_world lf_world (lit "a.star")
           [lit "data_"; lit "loop_"]).
  - repeat constructor.
  - reflexivity.
  - reflexivity.
Defined.

End OnMoreExamples.
